(** * wrfhydropy.utilities: comparison of restart files

    A shallow embedding of [src/wrfhydropy/utilities.py] and the proofs of
    its specification: [compare_nc_nccmp], [compare_ncfiles] and the
    constructor of [RestartDiffs].  The module is glue code around
    collaborators that are not part of the repository: the [nccmp]
    executable (reached through [subprocess.run]), [pandas.read_table] and
    the file system ([pathlib.Path.is_file]).  They are gathered in a
    record [World] of oracles, and every function of the module is a
    function of the world.  The observable effects (warnings, spawned
    processes, calls of the table parser) are collected, in order, in a
    trace, and a Python exception ends the computation with the trace
    emitted so far.  A world holds the answers of [Path.is_file]; the
    errors of the system that [Path.is_file] lets through are in the
    functions named [_sys], which take the call as the system makes it.

    [diff_namelist] hands its two files to [f90nml.read] and
    [deepdiff.DeepDiff]; what it computes is what these libraries compute,
    and only its protocol (the order of the calls, the keywords) is
    modelled here. *)

From stdpp Require Import base numbers strings list option gmap.

Open Scope string_scope.
Open Scope Z_scope.
Open Scope list_scope.

(** ** Python values and effects *)

(** The exceptions that the code of the module can meet:
    - [IndexError]: [reference_files[0]] on an empty list;
    - [OSError]: [subprocess.run] cannot start the tool;
    - [UnicodeDecodeError]: [proc.stdout.decode('utf-8')];
    - [AttributeError]: a method call on [None]. *)
Inductive PyExc : Set :=
  | IndexError
  | OSError
  | UnicodeDecodeError
  | AttributeError.

(** [subprocess.CompletedProcess]; [stdout] and [stderr] are byte strings
    (a Rocq [string] is a sequence of bytes). *)
Record CompletedProcess : Set := {
  args : list string;
  returncode : Z;
  stdout : string;
  stderr : string;
}.

(** A [pandas.DataFrame] read from a text table: the header row and the
    data rows. *)
Record DataFrame : Set := {
  columns : list string;
  rows : list (list string);
}.

(** What [compare_nc_nccmp] can return: [None] (the function falls off its
    end), a data frame, or the process object. *)
Inductive PyValue : Set :=
  | PyNone
  | PyDataFrame (df : DataFrame)
  | PyProc (proc : CompletedProcess).

Global Instance CompletedProcess_eq_dec : EqDecision CompletedProcess.
Proof. solve_decision. Defined.

Global Instance DataFrame_eq_dec : EqDecision DataFrame.
Proof. solve_decision. Defined.

Global Instance PyValue_eq_dec : EqDecision PyValue.
Proof. solve_decision. Defined.

(** The result of a rich comparison method called directly. *)
Inductive PyCmp : Set :=
  | PyTrue
  | PyFalse
  | PyNotImplemented.

(** [None.__ne__(x)]: [NoneType] inherits [object.__ne__], which answers
    [False] for [None] itself and [NotImplemented] for any other object. *)
Definition None__ne__ (x : PyValue) : PyCmp :=
  match x with
  | PyNone => PyFalse
  | PyDataFrame _ | PyProc _ => PyNotImplemented
  end.

(** [bool(c)], as [filter] takes it: [NotImplemented] is a true value in
    the versions of Python that the module was written for (its use as a
    truth value was deprecated in 3.9 and became an error in 3.14). *)
Definition truth (c : PyCmp) : bool :=
  match c with
  | PyTrue | PyNotImplemented => true
  | PyFalse => false
  end.

(** [filter(f, l)] keeps the elements whose image under [f] is true. *)
Definition py_filter {A : Type} (f : A → PyCmp) (l : list A) : list A :=
  List.filter (λ x, truth (f x)) l.

(** [sum(1 for _ in l)]. *)
Definition py_sum_ones {A : Type} (l : list A) : Z :=
  fold_left (λ acc _, acc + 1) l 0.

(** An optional keyword argument: left out by the caller, or given. *)
Inductive Arg (A : Type) : Type :=
  | Omitted
  | Given (a : A).
Arguments Omitted {A}.
Arguments Given {A} a.

Definition arg_or {A : Type} (default : A) (x : Arg A) : A :=
  match x with
  | Omitted => default
  | Given a => a
  end.

(** ** Paths *)

(** A [pathlib] POSIX path: whether it is anchored at the root, and its
    components.  Components are non-empty and hold no slash. *)
Record Path : Set := {
  absolute : bool;
  parts : list string;
}.

Global Instance Path_eq_dec : EqDecision Path.
Proof. solve_decision. Defined.

(** [p.parent]: the path without its last component; the root and the
    empty relative path are their own parents. *)
Definition parent (p : Path) : Path :=
  {| absolute := absolute p; parts := removelast (parts p) |}.

(** [p.name]: the last component, the empty string when there is none. *)
Definition name (p : Path) : string := List.last (parts p) "".

(** [p.joinpath(s)] for [s] a file name, which is how the module calls it
    (its argument is always a [.name]): an empty name changes nothing. *)
Definition joinpath (p : Path) (s : string) : Path :=
  if decide (s = "") then p
  else {| absolute := absolute p; parts := parts p ++ [s] |}.

(** [str(p)]. *)
Definition path_str (p : Path) : string :=
  if absolute p then "/" +:+ String.concat "/" (parts p)
  else match parts p with
       | [] => "."
       | _ :: _ => String.concat "/" (parts p)
       end.

(** The file arguments of [compare_nc_nccmp] are strings or paths; the
    function converts them with [str]. *)
Inductive PathLike : Set :=
  | PStr (s : string)
  | PPath (p : Path).

Definition py_str (x : PathLike) : string :=
  match x with
  | PStr s => s
  | PPath p => path_str p
  end.

(** ** The trace and the monad *)

Inductive Event : Set :=
  | Warn (msg : string)
  | Spawn (cmd : list string)
  | ReadTable (text : string).

(** A computation emits a trace and ends with an exception or a value. *)
Definition Py (A : Type) : Type := list Event * (PyExc + A).

Definition trace {A : Type} (m : Py A) : list Event := fst m.
Definition outcome {A : Type} (m : Py A) : PyExc + A := snd m.

Definition ret {A : Type} (a : A) : Py A := ([], inr a).

Definition raise {A : Type} (e : PyExc) : Py A := ([], inl e).

Definition bind {A B : Type} (m : Py A) (k : A → Py B) : Py B :=
  match m with
  | (t, inl e) => (t, inl e)
  | (t, inr a) => (t ++ trace (k a), outcome (k a))
  end.

Definition emit (ev : Event) : Py unit := ([ev], inr tt).

(** [warnings.warn(msg)] *)
Definition warn (msg : string) : Py unit := emit (Warn msg).

Declare Scope py_scope.
Delimit Scope py_scope with py.
Notation "x <- m ;; k" := (bind m (λ x, k))
  (at level 100, m at next level, right associativity) : py_scope.
Notation "m ;;; k" := (bind m (λ _, k))
  (at level 100, right associativity) : py_scope.
Open Scope py_scope.

(** The warnings of a trace, and the commands it spawned, in order. *)
Definition warnings (t : list Event) : list string :=
  omap (λ ev, match ev with Warn m => Some m | _ => None end) t.

Definition spawned (t : list Event) : list (list string) :=
  omap (λ ev, match ev with Spawn c => Some c | _ => None end) t.

Definition parsed (t : list Event) : list string :=
  omap (λ ev, match ev with ReadTable s => Some s | _ => None end) t.

(** ** The collaborators *)

Record World : Type := {
  (** [Path.is_file] *)
  is_file : Path → bool;
  (** [subprocess.run(cmd, stdout=PIPE, stderr=PIPE)] *)
  subprocess_run : list string → PyExc + CompletedProcess;
  (** [bytes.decode('utf-8')] *)
  decode_utf8 : string → option string;
  (** [pd.read_table(text, delim_whitespace=True, header=0)]; [None] when
      it raises, whatever the exception. *)
  read_table : string → option DataFrame;
}.

(** Modelled from the spec: the class [WrfHydroRun] is imported from the
    package and not defined in this module; a run object exposes, per
    category, an ordered and possibly empty collection of file paths. *)
Record WrfHydroRun : Set := {
  restart_hydro : list Path;
  restart_lsm : list Path;
  restart_nudging : list Path;
}.

(** The attributes of a [RestartDiffs] object; [None] is Python's [None]. *)
Record RestartDiffs : Type := {
  diff_counts : option (gmap string Z);
  hydro : option (list PyValue);
  lsm : option (list PyValue);
  nudging : option (list PyValue);
}.

(** ** The functions of the module *)

Definition default_nccmp_options : list string :=
  ["--data"; "--metadata"; "--force"; "--quiet"].

Definition default_exclude_vars : list string :=
  ["ACMELT"; "ACSNOW"; "SFCRUNOFF"; "UDRUNOFF"; "ACCPRCP";
   "ACCECAN"; "ACCEDIR"; "ACCETRAN"; "qstrmvolrt"].

(** Lines 28 to 46 of [compare_nc_nccmp]: the list given to
    [subprocess.run], built by successive [append]s. *)
Definition nccmp_command (candidate_nc reference_nc : PathLike)
    (nccmp_options : list string) (exclude_vars : option (list string))
    : list string :=
  let candidate_nc := py_str candidate_nc in
  let reference_nc := py_str reference_nc in
  let command_list := ["nccmp"] in
  let command_list :=
    fold_left (λ command_list item, command_list ++ [item])
              nccmp_options command_list in
  let command_list := command_list ++ ["-S"] in
  let command_list :=
    match exclude_vars with
    | Some exclude_vars =>
        let exclude_vars := String.concat "," exclude_vars in
        command_list ++ ["-x " +:+ exclude_vars]
    | None => command_list
    end in
  let command_list := command_list ++ [candidate_nc] in
  let command_list := command_list ++ [reference_nc] in
  command_list.

Definition parse_warning : string :=
  "Probleming reading nccmp output to pandas dataframe," +:+
  "returning as subprocess object".

Section Utilities.

Context (W : World).

Definition run (cmd : list string) : Py CompletedProcess :=
  (emit (Spawn cmd) ;;; ([], subprocess_run W cmd)).

Definition decode (b : string) : Py string :=
  match decode_utf8 W b with
  | Some s => ret s
  | None => raise UnicodeDecodeError
  end.

Definition compare_nc_nccmp (candidate_nc reference_nc : PathLike)
    (nccmp_options : Arg (list string))
    (exclude_vars : Arg (option (list string))) : Py PyValue :=
  let nccmp_options := arg_or default_nccmp_options nccmp_options in
  let exclude_vars := arg_or None exclude_vars in
  let command_list :=
    nccmp_command candidate_nc reference_nc nccmp_options exclude_vars in
  proc <- run command_list ;;
  if decide (returncode proc ≠ 0) then
    output <- decode (stdout proc) ;;
    emit (ReadTable output) ;;;
    match read_table W output with
    | Some nccmp_out => ret (PyDataFrame nccmp_out)
    | None => warn parse_warning ;;; ret (PyProc proc)
    end
  else ret PyNone.

(** The loop of [compare_ncfiles], with [output_list] as it stands when
    the remaining candidates are visited. *)
Fixpoint compare_ncfiles_loop (ref_dir : Path)
    (nccmp_options : list string) (exclude_vars : option (list string))
    (candidate_files : list Path) (output_list : list PyValue)
    : Py (list PyValue) :=
  match candidate_files with
  | [] => ret output_list
  | file_candidate :: candidate_files =>
      let file_reference := joinpath ref_dir (name file_candidate) in
      if is_file W file_reference then
        nccmp_out <- compare_nc_nccmp (PPath file_candidate)
                       (PPath file_reference)
                       (Given nccmp_options) (Given exclude_vars) ;;
        compare_ncfiles_loop ref_dir nccmp_options exclude_vars
          candidate_files (output_list ++ [nccmp_out])
      else
        warn (path_str file_candidate +:+ "not found in " +:+
              path_str ref_dir) ;;;
        compare_ncfiles_loop ref_dir nccmp_options exclude_vars
          candidate_files output_list
  end.

Definition compare_ncfiles (candidate_files reference_files : list Path)
    (nccmp_options : Arg (list string))
    (exclude_vars : Arg (option (list string))) : Py (list PyValue) :=
  let nccmp_options := arg_or default_nccmp_options nccmp_options in
  let exclude_vars := arg_or (Some default_exclude_vars) exclude_vars in
  match reference_files with
  | [] => raise IndexError
  | first_reference :: _ =>
      let ref_dir := parent first_reference in
      let output_list := [] in
      compare_ncfiles_loop ref_dir nccmp_options exclude_vars
        candidate_files output_list
  end.

(** Retained for backwards compatibility. *)
Definition compare_restarts := compare_ncfiles.

(** [self.diff_counts.update({key: n})] *)
Definition diff_counts_update (key : string) (n : Z) (self : RestartDiffs)
    : Py RestartDiffs :=
  match diff_counts self with
  | Some d =>
      ret {| diff_counts := Some (<[key := n]> d); hydro := hydro self;
             lsm := lsm self; nudging := nudging self |}
  | None => raise AttributeError
  end.

Definition RestartDiffs_init (candidate_run reference_run : WrfHydroRun)
    (nccmp_options : Arg (list string))
    (exclude_vars : Arg (option (list string))) : Py RestartDiffs :=
  let nccmp_options := arg_or default_nccmp_options nccmp_options in
  let exclude_vars := arg_or (Some default_exclude_vars) exclude_vars in
  let self :=
    {| diff_counts := None; hydro := None; lsm := None; nudging := None |} in
  let self :=
    {| diff_counts := Some ∅; hydro := hydro self; lsm := lsm self;
       nudging := nudging self |} in
  self <-
    (if bool_decide (length (restart_hydro candidate_run) ≠ 0%nat)
        && bool_decide (length (restart_hydro reference_run) ≠ 0%nat)
     then
       out <- compare_ncfiles (restart_hydro candidate_run)
                (restart_hydro reference_run)
                (Given nccmp_options) (Given exclude_vars) ;;
       let self :=
         {| diff_counts := diff_counts self; hydro := Some out;
            lsm := lsm self; nudging := nudging self |} in
       let n := py_sum_ones (py_filter None__ne__ out) in
       diff_counts_update "hydro" n self
     else
       warn ("length of candidate_sim.restart_hydro or " +:+
             "reference_sim.restart_hydro is 0") ;;;
       ret self) ;;
  self <-
    (if bool_decide (length (restart_lsm candidate_run) ≠ 0%nat)
        && bool_decide (length (restart_lsm reference_run) ≠ 0%nat)
     then
       out <- compare_ncfiles (restart_lsm candidate_run)
                (restart_lsm reference_run)
                (Given nccmp_options) (Given exclude_vars) ;;
       let self :=
         {| diff_counts := diff_counts self; hydro := hydro self;
            lsm := Some out; nudging := nudging self |} in
       let n := py_sum_ones (py_filter None__ne__ out) in
       diff_counts_update "lsm" n self
     else
       warn ("length of candidate_sim.restart_lsm or " +:+
             "reference_sim.restart_lsm is 0") ;;;
       ret self) ;;
  self <-
    (if bool_decide (length (restart_nudging candidate_run) ≠ 0%nat)
        && bool_decide (length (restart_nudging reference_run) ≠ 0%nat)
     then
       out <- compare_ncfiles (restart_nudging candidate_run)
                (restart_nudging reference_run)
                (Given nccmp_options) (Given exclude_vars) ;;
       let self :=
         {| diff_counts := diff_counts self; hydro := hydro self;
            lsm := lsm self; nudging := Some out |} in
       let n := py_sum_ones (py_filter None__ne__ out) in
       diff_counts_update "nudging" n self
     else
       warn ("length of candidate_sim.restart_nudging or " +:+
             "reference_sim.restart_nudging is 0") ;;;
       ret self) ;;
  ret self.

End Utilities.

(** ** The categories of restart files *)

Inductive Category : Set :=
  | Hydro
  | Lsm
  | Nudging.

Definition categories : list Category := [Hydro; Lsm; Nudging].

(** The key of a category in [diff_counts]. *)
Definition key_of (cat : Category) : string :=
  match cat with
  | Hydro => "hydro"
  | Lsm => "lsm"
  | Nudging => "nudging"
  end.

(** The collection of a category in a run object. *)
Definition restart_of (cat : Category) (r : WrfHydroRun) : list Path :=
  match cat with
  | Hydro => restart_hydro r
  | Lsm => restart_lsm r
  | Nudging => restart_nudging r
  end.

(** The attribute of a category in a [RestartDiffs] object. *)
Definition field_of (cat : Category) (o : RestartDiffs)
    : option (list PyValue) :=
  match cat with
  | Hydro => hydro o
  | Lsm => lsm o
  | Nudging => nudging o
  end.

(** The warning of [RestartDiffs] for a category with an empty side. *)
Definition empty_warning (cat : Category) : string :=
  "length of candidate_sim.restart_" +:+ key_of cat +:+
  " or reference_sim.restart_" +:+ key_of cat +:+ " is 0".

(** A category is compared when both of its collections are non-empty. *)
Definition compared (cat : Category) (candidate_run reference_run : WrfHydroRun)
    : bool :=
  match restart_of cat candidate_run, restart_of cat reference_run with
  | _ :: _, _ :: _ => true
  | _, _ => false
  end.

(** The number of entries of a result sequence that are not [None], in
    the words of the specification. *)
Definition count_non_null (l : list PyValue) : nat :=
  length (List.filter (λ v, negb (bool_decide (v = PyNone))) l).

(** ** The specification's vocabulary *)

(** The word that carries the excluded names on the command line. *)
Definition exclusion_flag (exclude_vars : option (list string))
    : list string :=
  match exclude_vars with
  | Some vs => ["-x " +:+ String.concat "," vs]
  | None => []
  end.

(** Where [compare_ncfiles] looks for the reference of a candidate. *)
Definition reference_of (ref_dir candidate : Path) : Path :=
  joinpath ref_dir (name candidate).

(** A candidate is matched when that path is a file. *)
Definition matched (W : World) (ref_dir candidate : Path) : bool :=
  is_file W (reference_of ref_dir candidate).

Definition missing_warning (ref_dir candidate : Path) : string :=
  path_str candidate +:+ "not found in " +:+ path_str ref_dir.

(** The comparison of a candidate with its reference. *)
Definition compare_pair (W : World) (ref_dir : Path) (opts : list string)
    (ex : option (list string)) (candidate : Path) : Py PyValue :=
  compare_nc_nccmp W (PPath candidate) (PPath (reference_of ref_dir candidate))
    (Given opts) (Given ex).

(** What the visit of one candidate adds to the trace. *)
Definition visit_trace (W : World) (ref_dir : Path) (opts : list string)
    (ex : option (list string)) (candidate : Path) : list Event :=
  if matched W ref_dir candidate
  then trace (compare_pair W ref_dir opts ex candidate)
  else [Warn (missing_warning ref_dir candidate)].

(** The comparison of a category of two runs. *)
Definition compare_category (W : World) (candidate_run reference_run : WrfHydroRun)
    (opts : list string) (ex : option (list string)) (cat : Category)
    : Py (list PyValue) :=
  compare_ncfiles W (restart_of cat candidate_run)
    (restart_of cat reference_run) (Given opts) (Given ex).

(** What [RestartDiffs] adds to the trace for a category. *)
Definition category_trace (W : World) (candidate_run reference_run : WrfHydroRun)
    (opts : list string) (ex : option (list string)) (cat : Category)
    : list Event :=
  if compared cat candidate_run reference_run
  then trace (compare_category W candidate_run reference_run opts ex cat)
  else [Warn (empty_warning cat)].

(** The object with the attribute of a category set. *)
Definition set_field (cat : Category) (out : list PyValue)
    (self : RestartDiffs) : RestartDiffs :=
  match cat with
  | Hydro => {| diff_counts := diff_counts self; hydro := Some out;
                lsm := lsm self; nudging := nudging self |}
  | Lsm => {| diff_counts := diff_counts self; hydro := hydro self;
              lsm := Some out; nudging := nudging self |}
  | Nudging => {| diff_counts := diff_counts self; hydro := hydro self;
                  lsm := lsm self; nudging := Some out |}
  end.

(** The block of [RestartDiffs.__init__] for a category: the three blocks
    of the source differ by the category only. *)
Definition category_block (W : World) (candidate_run reference_run : WrfHydroRun)
    (opts : list string) (ex : option (list string)) (cat : Category)
    (self : RestartDiffs) : Py RestartDiffs :=
  if compared cat candidate_run reference_run then
    out <- compare_category W candidate_run reference_run opts ex cat ;;
    diff_counts_update (key_of cat)
      (py_sum_ones (py_filter None__ne__ out)) (set_field cat out self)
  else
    warn (empty_warning cat) ;;; ret self.

(** The entries of the trace before and after the block of a category. *)
Definition categories_before (cat : Category) : list Category :=
  match cat with
  | Hydro => []
  | Lsm => [Hydro]
  | Nudging => [Hydro; Lsm]
  end.

Definition categories_after (cat : Category) : list Category :=
  match cat with
  | Hydro => [Lsm; Nudging]
  | Lsm => [Nudging]
  | Nudging => []
  end.

(** A computation returns when it ends with a value. *)
Definition returns {A : Type} (m : Py A) : bool :=
  match outcome m with
  | inr _ => true
  | inl _ => false
  end.

(** The command of a comparison run with the default exclusions. *)
Definition default_exclusion_command (opts : list string) (cmd : list string)
    : Prop :=
  ∃ candidate reference : string,
    cmd = ["nccmp"] ++ opts
          ++ ["-S";
              "-x ACMELT,ACSNOW,SFCRUNOFF,UDRUNOFF,ACCPRCP,ACCECAN,ACCEDIR,ACCETRAN,qstrmvolrt";
              candidate; reference].

Global Instance Category_eq_dec : EqDecision Category.
Proof. solve_decision. Defined.

(** The object with its dictionary of counts replaced. *)
Definition with_counts (d : gmap string Z) (self : RestartDiffs)
    : RestartDiffs :=
  {| diff_counts := Some d; hydro := hydro self; lsm := lsm self;
     nudging := nudging self |}.

(** The object as [RestartDiffs.__init__] has it before the first block. *)
Definition fresh_report : RestartDiffs :=
  {| diff_counts := Some ∅; hydro := None; lsm := None; nudging := None |}.

(** A category that was compared: its attribute is the result of the
    comparison, and its count is the number of entries that are not
    [None]. *)
Definition category_stored (W : World) (candidate_run reference_run : WrfHydroRun)
    (opts : list string) (ex : option (list string)) (d : gmap string Z)
    (self : RestartDiffs) (cat : Category) : Prop :=
  ∃ out,
    outcome (compare_category W candidate_run reference_run opts ex cat)
    = inr out
    ∧ field_of cat self = Some out
    ∧ d !! key_of cat = Some (Z.of_nat (count_non_null out)).

(** A category that was not: no attribute and no count. *)
Definition category_unset (d : gmap string Z) (self : RestartDiffs)
    (cat : Category) : Prop :=
  field_of cat self = None ∧ d !! key_of cat = None.

(** The state of the object once the blocks of the categories [done] have
    been run. *)
Definition report_invariant (W : World) (candidate_run reference_run : WrfHydroRun)
    (opts : list string) (ex : option (list string)) (done : list Category)
    (self : RestartDiffs) : Prop :=
  ∃ d, diff_counts self = Some d
       ∧ (∀ cat,
            if bool_decide (cat ∈ done)
               && compared cat candidate_run reference_run
            then category_stored W candidate_run reference_run opts ex d
                   self cat
            else category_unset d self cat)
       ∧ (∀ k, is_Some (d !! k) → ∃ cat, cat ∈ done ∧ k = key_of cat).

(** ** A world to run the module in

    The reference directory [/ref] holds [a.nc], [b.nc], [c.nc] and
    [d.nc].  The tool finds the candidate [a.nc] equal to its reference,
    reports a table for [b.nc], fails without output for [c.nc], and prints
    bytes that are not UTF-8 for [d.nc]; it cannot be started on a command
    of fewer than two words. *)
Module Example.

Definition abs_path (ps : list string) : Path :=
  {| absolute := true; parts := ps |}.

Definition newline : string := String (Ascii.ascii_of_nat 10) "".

Definition is_file (p : Path) : bool :=
  bool_decide (p ∈ [abs_path ["ref"; "a.nc"]; abs_path ["ref"; "b.nc"];
                    abs_path ["ref"; "c.nc"]; abs_path ["ref"; "d.nc"]]).

Definition table_text : string :=
  "Variable Group Count" +:+ newline +:+ "qlink1 / 12" +:+ newline.

Definition subprocess_run (cmd : list string)
    : PyExc + CompletedProcess :=
  match rev cmd with
  | _ :: candidate :: _ =>
      if decide (candidate = "/cand/a.nc") then
        inr {| args := cmd; returncode := 0; stdout := ""; stderr := "" |}
      else if decide (candidate = "/cand/b.nc") then
        inr {| args := cmd; returncode := 1; stdout := table_text;
               stderr := "" |}
      else if decide (candidate = "/cand/d.nc") then
        inr {| args := cmd; returncode := 1;
               stdout := String (Ascii.ascii_of_nat 255) ""; stderr := "" |}
      else
        inr {| args := cmd; returncode := 2; stdout := "";
               stderr := "nccmp: failed" |}
  | _ => inl OSError
  end.

(** Decoding of ASCII text; any other byte is refused. *)
Definition decode_utf8 (b : string) : option string :=
  if forallb (λ c, (Ascii.nat_of_ascii c <? 128)%nat) (String.list_ascii_of_string b)
  then Some b else None.

Fixpoint split_on (sep : Ascii.ascii) (s : string) : list string :=
  match s with
  | EmptyString => [""]
  | String c s' =>
      if decide (c = sep) then "" :: split_on sep s'
      else match split_on sep s' with
           | [] => [String c ""]
           | w :: ws => String c w :: ws
           end
  end.

Definition words (sep : Ascii.ascii) (s : string) : list string :=
  List.filter (λ w, negb (bool_decide (w = ""))) (split_on sep s).

(** A table of words separated by blanks, one row per line, the first
    one being the header; a text without a header is refused. *)
Definition read_table (text : string) : option DataFrame :=
  match
    List.filter (λ r, negb (bool_decide (r = [])))
      (map (words (Ascii.ascii_of_nat 32)) (split_on (Ascii.ascii_of_nat 10) text))
  with
  | [] => None
  | header :: body => Some {| columns := header; rows := body |}
  end.

Definition world : World :=
  Build_World is_file subprocess_run decode_utf8 read_table.

Definition cand (f : string) : Path := abs_path ["cand"; f].
Definition ref (f : string) : Path := abs_path ["ref"; f].

Definition candidate_run : WrfHydroRun :=
  {| restart_hydro := [cand "a.nc"; cand "b.nc"; cand "z.nc"; cand "c.nc"];
     restart_lsm := [];
     restart_nudging := [cand "a.nc"] |}.

Definition reference_run : WrfHydroRun :=
  {| restart_hydro := [ref "a.nc"; ref "b.nc"; ref "c.nc"];
     restart_lsm := [ref "a.nc"];
     restart_nudging := [ref "a.nc"] |}.

(** The object built from the two runs. *)
Definition diffs : RestartDiffs :=
  match
    outcome (RestartDiffs_init world candidate_run reference_run
               Omitted Omitted)
  with
  | inr obj => obj
  | inl _ => fresh_report
  end.

End Example.

(** ** More vocabulary *)

(** The process that compares a candidate with its reference exits with
    a status that is not zero. *)
Definition differs (W : World) (ref_dir : Path) (opts : list string)
    (ex : option (list string)) (candidate : Path) : bool :=
  match
    subprocess_run W
      (nccmp_command (PPath candidate)
         (PPath (reference_of ref_dir candidate)) opts ex)
  with
  | inr proc => bool_decide (returncode proc ≠ 0)
  | inl _ => false
  end.

(** The entries of a result sequence that are process objects. *)
Definition is_proc (v : PyValue) : bool :=
  match v with
  | PyProc _ => true
  | PyNone | PyDataFrame _ => false
  end.

(** The warning of [compare_ncfiles] for each candidate of a list. *)
Definition missing_warnings (ref_dir : Path) (candidates : list Path)
    : list Event :=
  map (λ c, Warn (missing_warning ref_dir c)) candidates.

(** A command without an exclusion word. *)
Definition plain_command (opts : list string) (cmd : list string) : Prop :=
  ∃ candidate reference : string,
    cmd = ["nccmp"] ++ opts ++ ["-S"; candidate; reference].

(** A command that starts with the default options. *)
Definition default_options_command (cmd : list string) : Prop :=
  ∃ rest : list string,
    cmd = ["nccmp"; "--data"; "--metadata"; "--force"; "--quiet"; "-S"]
          ++ rest.

(** ** The file system that can refuse

    [Path.is_file] answers [False] for a path that does not exist, and
    lets the other errors of the system through (permission denied, a name
    that is too long).  A [World] records the answers of a run in which it
    answers.  Here are [compare_ncfiles] and the constructor of
    [RestartDiffs] with the call as the system makes it: [is_file_sys]
    answers or raises, and the world [W] gives the other collaborators
    (its own [is_file] is not consulted). *)

Fixpoint compare_ncfiles_loop_sys (is_file_sys : Path → PyExc + bool)
    (W : World) (ref_dir : Path)
    (nccmp_options : list string) (exclude_vars : option (list string))
    (candidate_files : list Path) (output_list : list PyValue)
    : Py (list PyValue) :=
  match candidate_files with
  | [] => ret output_list
  | file_candidate :: candidate_files =>
      let file_reference := joinpath ref_dir (name file_candidate) in
      found <- ([], is_file_sys file_reference) ;;
      if (found : bool) then
        nccmp_out <- compare_nc_nccmp W (PPath file_candidate)
                       (PPath file_reference)
                       (Given nccmp_options) (Given exclude_vars) ;;
        compare_ncfiles_loop_sys is_file_sys W ref_dir nccmp_options
          exclude_vars candidate_files (output_list ++ [nccmp_out])
      else
        warn (path_str file_candidate +:+ "not found in " +:+
              path_str ref_dir) ;;;
        compare_ncfiles_loop_sys is_file_sys W ref_dir nccmp_options
          exclude_vars candidate_files output_list
  end.

Definition compare_ncfiles_sys (is_file_sys : Path → PyExc + bool)
    (W : World) (candidate_files reference_files : list Path)
    (nccmp_options : Arg (list string))
    (exclude_vars : Arg (option (list string))) : Py (list PyValue) :=
  let nccmp_options := arg_or default_nccmp_options nccmp_options in
  let exclude_vars := arg_or (Some default_exclude_vars) exclude_vars in
  match reference_files with
  | [] => raise IndexError
  | first_reference :: _ =>
      let ref_dir := parent first_reference in
      let output_list := [] in
      compare_ncfiles_loop_sys is_file_sys W ref_dir nccmp_options
        exclude_vars candidate_files output_list
  end.

Definition RestartDiffs_init_sys (is_file_sys : Path → PyExc + bool)
    (W : World) (candidate_run reference_run : WrfHydroRun)
    (nccmp_options : Arg (list string))
    (exclude_vars : Arg (option (list string))) : Py RestartDiffs :=
  let nccmp_options := arg_or default_nccmp_options nccmp_options in
  let exclude_vars := arg_or (Some default_exclude_vars) exclude_vars in
  let self :=
    {| diff_counts := None; hydro := None; lsm := None; nudging := None |} in
  let self :=
    {| diff_counts := Some ∅; hydro := hydro self; lsm := lsm self;
       nudging := nudging self |} in
  self <-
    (if bool_decide (length (restart_hydro candidate_run) ≠ 0%nat)
        && bool_decide (length (restart_hydro reference_run) ≠ 0%nat)
     then
       out <- compare_ncfiles_sys is_file_sys W
                (restart_hydro candidate_run) (restart_hydro reference_run)
                (Given nccmp_options) (Given exclude_vars) ;;
       let self :=
         {| diff_counts := diff_counts self; hydro := Some out;
            lsm := lsm self; nudging := nudging self |} in
       let n := py_sum_ones (py_filter None__ne__ out) in
       diff_counts_update "hydro" n self
     else
       warn ("length of candidate_sim.restart_hydro or " +:+
             "reference_sim.restart_hydro is 0") ;;;
       ret self) ;;
  self <-
    (if bool_decide (length (restart_lsm candidate_run) ≠ 0%nat)
        && bool_decide (length (restart_lsm reference_run) ≠ 0%nat)
     then
       out <- compare_ncfiles_sys is_file_sys W
                (restart_lsm candidate_run) (restart_lsm reference_run)
                (Given nccmp_options) (Given exclude_vars) ;;
       let self :=
         {| diff_counts := diff_counts self; hydro := hydro self;
            lsm := Some out; nudging := nudging self |} in
       let n := py_sum_ones (py_filter None__ne__ out) in
       diff_counts_update "lsm" n self
     else
       warn ("length of candidate_sim.restart_lsm or " +:+
             "reference_sim.restart_lsm is 0") ;;;
       ret self) ;;
  self <-
    (if bool_decide (length (restart_nudging candidate_run) ≠ 0%nat)
        && bool_decide (length (restart_nudging reference_run) ≠ 0%nat)
     then
       out <- compare_ncfiles_sys is_file_sys W
                (restart_nudging candidate_run)
                (restart_nudging reference_run)
                (Given nccmp_options) (Given exclude_vars) ;;
       let self :=
         {| diff_counts := diff_counts self; hydro := hydro self;
            lsm := lsm self; nudging := Some out |} in
       let n := py_sum_ones (py_filter None__ne__ out) in
       diff_counts_update "nudging" n self
     else
       warn ("length of candidate_sim.restart_nudging or " +:+
             "reference_sim.restart_nudging is 0") ;;;
       ret self) ;;
  ret self.

(** The block of a category in [RestartDiffs_init_sys]. *)
Definition category_block_sys (is_file_sys : Path → PyExc + bool)
    (W : World) (candidate_run reference_run : WrfHydroRun)
    (opts : list string) (ex : option (list string)) (cat : Category)
    (self : RestartDiffs) : Py RestartDiffs :=
  if compared cat candidate_run reference_run then
    out <- compare_ncfiles_sys is_file_sys W (restart_of cat candidate_run)
             (restart_of cat reference_run) (Given opts) (Given ex) ;;
    diff_counts_update (key_of cat)
      (py_sum_ones (py_filter None__ne__ out)) (set_field cat out self)
  else
    warn (empty_warning cat) ;;; ret self.

(** Where the visit of a candidate can raise: [is_file] raises, or the
    reference is a file and the comparison raises. *)
Definition visit_raises (is_file_sys : Path → PyExc + bool) (W : World)
    (ref_dir : Path) (opts : list string) (ex : option (list string))
    (candidate : Path) (err : PyExc) : Prop :=
  is_file_sys (reference_of ref_dir candidate) = inl err
  ∨ (is_file_sys (reference_of ref_dir candidate) = inr true
     ∧ outcome (compare_pair W ref_dir opts ex candidate) = inl err).

(** The visit of a candidate cannot raise: [is_file] answers, and when
    the reference is a file the process of the comparison runs, and its
    output decodes unless it exits with status zero. *)
Definition visit_safe (is_file_sys : Path → PyExc + bool) (W : World)
    (ref_dir : Path) (opts : list string) (ex : option (list string))
    (candidate : Path) : bool :=
  match is_file_sys (reference_of ref_dir candidate) with
  | inl _ => false
  | inr false => true
  | inr true =>
      match
        subprocess_run W
          (nccmp_command (PPath candidate)
             (PPath (reference_of ref_dir candidate)) opts ex)
      with
      | inl _ => false
      | inr proc =>
          bool_decide (returncode proc = 0)
          || bool_decide (is_Some (decode_utf8 W (stdout proc)))
      end
  end.

(** The file system of the example, with a reference that cannot be
    looked at. *)
Module Guarded.

Definition is_file (p : Path) : PyExc + bool :=
  if decide (p = Example.ref "secret.nc") then inl OSError
  else inr (Example.is_file p).

End Guarded.

(** ** [diff_namelist]

    The parser and the differ are those of [f90nml] and [deepdiff]; they
    are oracles here, over types of their own.  What the module adds is the
    order of the calls and the keywords of the call of [DeepDiff]. *)

(** The values that a keyword of [DeepDiff] can take. *)
Inductive KwValue : Set :=
  | KwBool (b : bool)
  | KwInt (z : Z)
  | KwStr (s : string)
  | KwList (l : list string).

Record NamelistLibraries : Type := {
  Namelist : Type;
  DeepDiffResult : Type;
  PyDict : Type;
  LibraryExc : Type;
  (** [f90nml.read(path)] *)
  f90nml_read : string → LibraryExc + Namelist;
  (** [DeepDiff(t1, t2, **keywords)] *)
  DeepDiff : Namelist → Namelist → gmap string KwValue
             → LibraryExc + DeepDiffResult;
  (** [dict(differences)] *)
  dict : DeepDiffResult → PyDict;
}.

(** The exceptions of [diff_namelist]: those of the libraries, and the
    [TypeError] of a call that gets a keyword twice. *)
Inductive NamelistExc (E : Type) : Type :=
  | TypeError
  | Raised (e : E).
Arguments TypeError {E}.
Arguments Raised {E} e.

Inductive NamelistEvent : Set :=
  | ReadNamelist (path : string)
  | CallDeepDiff (keywords : gmap string KwValue).

(** The parameters that [DeepDiff] takes by position; the first is the
    object itself. *)
Definition DeepDiff_positional : list string := ["self"; "t1"; "t2"].

(** The names that the call of line 119 already gives a value to. *)
Definition given_names : list string := "ignore_order" :: DeepDiff_positional.

(** [DeepDiff(namelist1, namelist2, ignore_order=True, **kwargs)]: the
    keywords that the callee gets; a key of [kwargs] that names an argument
    already given is a [TypeError] of the call. *)
Definition call_keywords (kwargs : gmap string KwValue)
    : option (gmap string KwValue) :=
  if existsb (λ k, bool_decide (is_Some (kwargs !! k))) given_names
  then None
  else Some (<["ignore_order" := KwBool true]> kwargs).

Definition diff_namelist (L : NamelistLibraries) (namelist1 namelist2 : string)
    (kwargs : gmap string KwValue)
    : list NamelistEvent * (NamelistExc (LibraryExc L) + PyDict L) :=
  match f90nml_read L namelist1 with
  | inl e => ([ReadNamelist namelist1], inl (Raised e))
  | inr namelist1' =>
      match f90nml_read L namelist2 with
      | inl e =>
          ([ReadNamelist namelist1; ReadNamelist namelist2], inl (Raised e))
      | inr namelist2' =>
          match call_keywords kwargs with
          | None =>
              ([ReadNamelist namelist1; ReadNamelist namelist2],
               inl TypeError)
          | Some keywords =>
              ([ReadNamelist namelist1; ReadNamelist namelist2;
                CallDeepDiff keywords],
               match DeepDiff L namelist1' namelist2' keywords with
               | inl e => inl (Raised e)
               | inr differences =>
                   let differences_dict := dict L differences in
                   inr differences_dict
               end)
          end
      end
  end.

(** Libraries for an example: a namelist is the list of the lines of its
    file, the file [missing.nml] cannot be read, and the difference of two
    namelists is the number of lines that one has and the other has not. *)
Module NamelistExample.

Definition f90nml_read (path : string) : unit + list string :=
  if decide (path = "missing.nml") then inl tt
  else if decide (path = "a.nml") then inr ["&grid"; "nx=3"; "/"]
  else inr ["&grid"; "nx=4"; "/"].

Definition DeepDiff (t1 t2 : list string) (keywords : gmap string KwValue)
    : unit + nat :=
  inr (length (List.filter (λ l, negb (bool_decide (l ∈ t2))) t1)
       + length (List.filter (λ l, negb (bool_decide (l ∈ t1))) t2))%nat.

Definition libraries : NamelistLibraries :=
  Build_NamelistLibraries (list string) nat nat unit f90nml_read DeepDiff id.

End NamelistExample.

(** ** The monad *)

Lemma surjective_py {A : Type} (m : Py A) : m = (trace m, outcome m).
Proof. by destruct m. Qed.

Lemma bind_ret_l {A B : Type} (a : A) (k : A → Py B) : bind (ret a) k = k a.
Proof. unfold bind, ret. simpl. by destruct (k a). Qed.

Lemma bind_value {A B : Type} (m : Py A) (k : A → Py B) t a :
  m = (t, inr a) → bind m k = (t ++ trace (k a), outcome (k a)).
Proof. by intros ->. Qed.

Lemma bind_raise {A B : Type} (m : Py A) (k : A → Py B) t e :
  m = (t, inl e) → bind m k = (t, inl e).
Proof. by intros ->. Qed.

(** A sequence that returns a value is made of two parts that do. *)
Lemma bind_inr {A B : Type} (m : Py A) (k : A → Py B) t b :
  bind m k = (t, inr b) →
  ∃ t1 a, m = (t1, inr a) ∧ t = t1 ++ trace (k a) ∧ outcome (k a) = inr b.
Proof.
  destruct m as [t1 [e | a]]; simpl; intros H.
  - discriminate.
  - injection H as <- H. by exists t1, a.
Qed.

Lemma bind_inr_inv {A B : Type} (m : Py A) (k : A → Py B) t b :
  bind m k = (t, inr b) →
  ∃ t1 a t2, m = (t1, inr a) ∧ k a = (t2, inr b) ∧ t = t1 ++ t2.
Proof.
  intros H. apply bind_inr in H as (t1 & a & Hm & -> & Hk).
  exists t1, a, (trace (k a)). split; [done |]. split; [| done].
  rewrite <- Hk. apply surjective_py.
Qed.

Lemma warn_then {A : Type} (msg : string) (m : Py A) :
  (warn msg ;;; m) = (Warn msg :: trace m, outcome m).
Proof. reflexivity. Qed.

Lemma spawned_app t1 t2 : spawned (t1 ++ t2) = spawned t1 ++ spawned t2.
Proof. unfold spawned. apply omap_app. Qed.

Lemma parsed_app t1 t2 : parsed (t1 ++ t2) = parsed t1 ++ parsed t2.
Proof. unfold parsed. apply omap_app. Qed.

(** ** Counting *)

Lemma fold_left_snoc {A : Type} (xs acc : list A) :
  fold_left (λ l x, l ++ [x]) xs acc = acc ++ xs.
Proof.
  revert acc. induction xs as [| x xs IH]; intros acc; simpl.
  - by rewrite app_nil_r.
  - rewrite IH. by rewrite <- app_assoc.
Qed.

Lemma fold_left_ones {A : Type} (l : list A) (acc : Z) :
  fold_left (λ acc _, acc + 1) l acc = acc + Z.of_nat (length l).
Proof.
  revert acc. induction l as [| x l IH]; intros acc; simpl length; simpl fold_left.
  - lia.
  - rewrite IH. lia.
Qed.

Lemma py_sum_ones_length {A : Type} (l : list A) :
  py_sum_ones l = Z.of_nat (length l).
Proof. unfold py_sum_ones. rewrite fold_left_ones. lia. Qed.

(** [filter(None.__ne__, l)] keeps exactly the entries that are not
    [None]. *)
Lemma py_filter_non_null (l : list PyValue) :
  py_filter None__ne__ l
  = List.filter (λ v, negb (bool_decide (v = PyNone))) l.
Proof.
  unfold py_filter. induction l as [| v l IH]; simpl; [done |].
  rewrite IH. by destruct v.
Qed.

Lemma diff_count_non_null (l : list PyValue) :
  py_sum_ones (py_filter None__ne__ l) = Z.of_nat (count_non_null l).
Proof.
  rewrite py_sum_ones_length, py_filter_non_null. reflexivity.
Qed.

Lemma count_non_null_le (l : list PyValue) :
  (count_non_null l ≤ length l)%nat.
Proof. unfold count_non_null. apply List.filter_length_le. Qed.

Lemma count_non_null_app (l1 l2 : list PyValue) :
  count_non_null (l1 ++ l2) = (count_non_null l1 + count_non_null l2)%nat.
Proof.
  unfold count_non_null. by rewrite List.filter_app, length_app.
Qed.

(** ** The command line *)

Lemma nccmp_command_form c r opts ex :
  nccmp_command c r opts ex
  = ["nccmp"] ++ opts ++ ["-S"] ++ exclusion_flag ex ++ [py_str c; py_str r].
Proof.
  unfold nccmp_command. rewrite fold_left_snoc.
  destruct ex as [vs |]; simpl; rewrite <- ?app_assoc; reflexivity.
Qed.

(** [compare_nc_nccmp] starts by spawning its command, whatever follows. *)
Lemma compare_nc_nccmp_spawns W c r o e :
  ∃ t, trace (compare_nc_nccmp W c r o e)
       = Spawn (nccmp_command c r (arg_or default_nccmp_options o)
                  (arg_or None e)) :: t
       ∧ spawned t = [].
Proof.
  unfold compare_nc_nccmp, run. simpl.
  destruct (subprocess_run W _) as [err | proc]; simpl.
  - by exists [].
  - case_decide; [| by exists []].
    unfold decode. destruct (decode_utf8 W _) as [s |]; simpl; [| by exists []].
    destruct (read_table W s); simpl; eexists; split; reflexivity.
Qed.

Lemma compare_nc_nccmp_spawned W c r o e :
  spawned (trace (compare_nc_nccmp W c r o e))
  = [ ["nccmp"] ++ arg_or default_nccmp_options o ++ ["-S"]
      ++ exclusion_flag (arg_or None e) ++ [py_str c; py_str r] ].
Proof.
  destruct (compare_nc_nccmp_spawns W c r o e) as (t & -> & Ht).
  simpl. rewrite Ht, nccmp_command_form. reflexivity.
Qed.

(** C7: every call of [compare_nc_nccmp] spawns exactly one process, whose
    command is the tool name [nccmp], the base options in their order, the
    flag [-S], then, only when [exclude_vars] is not [None], one word made
    of [-x] and the excluded names joined by commas, and last the candidate
    path and the reference path. *)
Theorem compare_nc_nccmp_command W c r o e :
  spawned (trace (compare_nc_nccmp W c r o e))
  = [ ["nccmp"] ++ arg_or default_nccmp_options o ++ ["-S"]
      ++ match arg_or None e with
         | Some vs => ["-x " +:+ String.concat "," vs]
         | None => []
         end
      ++ [py_str c; py_str r] ].
Proof.
  destruct (compare_nc_nccmp_spawns W c r o e) as (t & Htrace & Hrest).
  rewrite Htrace. simpl. rewrite Hrest. f_equal.
  apply nccmp_command_form.
Qed.

(** ** [compare_nc_nccmp] *)

Section Comparator.

Context (W : World).

(** C5: when the process exits with status zero, [compare_nc_nccmp]
    returns [None] after the spawn alone: the output is neither decoded
    nor given to the table parser, whatever the world would answer; and an
    entry [None] in a result sequence adds nothing to the count that
    [RestartDiffs] stores for the category. *)
Theorem compare_nc_nccmp_equal c r o e proc :
  subprocess_run W (nccmp_command c r (arg_or default_nccmp_options o)
                      (arg_or None e)) = inr proc →
  returncode proc = 0 →
  compare_nc_nccmp W c r o e
  = ([Spawn (nccmp_command c r (arg_or default_nccmp_options o)
               (arg_or None e))], inr PyNone)
  ∧ parsed (trace (compare_nc_nccmp W c r o e)) = []
  ∧ ∀ before after : list PyValue,
      py_sum_ones (py_filter None__ne__ (before ++ PyNone :: after))
      = py_sum_ones (py_filter None__ne__ (before ++ after)).
Proof.
  intros Hrun Hzero.
  assert (compare_nc_nccmp W c r o e
          = ([Spawn (nccmp_command c r (arg_or default_nccmp_options o)
                       (arg_or None e))], inr PyNone)) as Heq.
  { unfold compare_nc_nccmp, run. simpl. rewrite Hrun. simpl.
    case_decide; [contradiction | reflexivity]. }
  split; [exact Heq |]. split; [by rewrite Heq |].
  intros before after. rewrite !diff_count_non_null.
  by rewrite !count_non_null_app.
Qed.

(** X19: when the process exits with a status that is not zero, its output
    decodes, and the table parser fails on it, [compare_nc_nccmp] warns
    and returns the process object; it raises nothing. *)
Theorem compare_nc_nccmp_degrades c r o e proc text :
  subprocess_run W (nccmp_command c r (arg_or default_nccmp_options o)
                      (arg_or None e)) = inr proc →
  returncode proc ≠ 0 →
  decode_utf8 W (stdout proc) = Some text →
  read_table W text = None →
  compare_nc_nccmp W c r o e
  = ([Spawn (nccmp_command c r (arg_or default_nccmp_options o)
               (arg_or None e));
      ReadTable text;
      Warn parse_warning], inr (PyProc proc)).
Proof.
  intros Hrun Hnz Hdec Hparse.
  unfold compare_nc_nccmp, run, decode. simpl. rewrite Hrun. simpl.
  case_decide; [| contradiction].
  rewrite Hdec. simpl. rewrite Hparse. reflexivity.
Qed.

(** The other outcomes of a call, for the record: a parsed table is
    returned as a data frame, and the two failures outside the [try]
    block are raised. *)
Lemma compare_nc_nccmp_table c r o e proc text df :
  subprocess_run W (nccmp_command c r (arg_or default_nccmp_options o)
                      (arg_or None e)) = inr proc →
  returncode proc ≠ 0 →
  decode_utf8 W (stdout proc) = Some text →
  read_table W text = Some df →
  outcome (compare_nc_nccmp W c r o e) = inr (PyDataFrame df).
Proof.
  intros Hrun Hnz Hdec Hparse.
  unfold compare_nc_nccmp, run, decode. simpl. rewrite Hrun. simpl.
  case_decide; [| contradiction].
  rewrite Hdec. simpl. rewrite Hparse. reflexivity.
Qed.

Lemma compare_nc_nccmp_raises c r o e :
  (∃ err, outcome (compare_nc_nccmp W c r o e) = inl err)
  ↔ (∃ err, subprocess_run W (nccmp_command c r
               (arg_or default_nccmp_options o) (arg_or None e)) = inl err)
    ∨ (∃ proc, subprocess_run W (nccmp_command c r
               (arg_or default_nccmp_options o) (arg_or None e)) = inr proc
         ∧ returncode proc ≠ 0 ∧ decode_utf8 W (stdout proc) = None).
Proof.
  unfold compare_nc_nccmp, run, decode. simpl.
  destruct (subprocess_run W _) as [err | proc]; simpl.
  - split; [intros _; left; by exists err | intros _; by exists err].
  - case_decide as Hrc; simpl.
    + destruct (decode_utf8 W (stdout proc)) as [text |] eqn:Hdec; simpl.
      * destruct (read_table W text); simpl; split.
        -- intros [? ?]; discriminate.
        -- intros [[? ?] | (? & ? & ? & ?)]; [discriminate | simplify_eq].
        -- intros [? ?]; discriminate.
        -- intros [[? ?] | (? & ? & ? & ?)]; [discriminate | simplify_eq].
      * split; [| intros _; by exists UnicodeDecodeError].
        intros _. right. by exists proc.
    + split; [intros [? ?]; discriminate |].
      intros [[? ?] | (? & ? & ? & ?)]; [discriminate | simplify_eq].
Qed.

End Comparator.

(** ** [compare_ncfiles] *)

Section Matcher.

Context (W : World).

Lemma returns_inr {A : Type} (m : Py A) :
  returns m → ∃ v, outcome m = inr v.
Proof.
  unfold returns. destruct (outcome m) as [err | v]; [done |]. by exists v.
Qed.

Lemma inr_returns {A : Type} (m : Py A) v : outcome m = inr v → returns m.
Proof. unfold returns. by intros ->. Qed.

Lemma compare_ncfiles_loop_cons ref_dir opts ex c cs acc :
  compare_ncfiles_loop W ref_dir opts ex (c :: cs) acc
  = if matched W ref_dir c then
      v <- compare_pair W ref_dir opts ex c ;;
      compare_ncfiles_loop W ref_dir opts ex cs (acc ++ [v])
    else
      warn (missing_warning ref_dir c) ;;;
      compare_ncfiles_loop W ref_dir opts ex cs acc.
Proof. reflexivity. Qed.

(** When the loop returns, it has appended the outcomes of the matched
    candidates, in their order, and its trace is made of the visits. *)
Lemma compare_ncfiles_loop_inr ref_dir opts ex cands acc out :
  outcome (compare_ncfiles_loop W ref_dir opts ex cands acc) = inr out →
  ∃ vs, out = acc ++ vs
        ∧ Forall2 (λ c v, outcome (compare_pair W ref_dir opts ex c) = inr v)
            (List.filter (matched W ref_dir) cands) vs
        ∧ trace (compare_ncfiles_loop W ref_dir opts ex cands acc)
          = flat_map (visit_trace W ref_dir opts ex) cands.
Proof.
  revert acc out. induction cands as [| c cs IH]; intros acc out H.
  - injection H as <-. exists []. by rewrite app_nil_r.
  - rewrite compare_ncfiles_loop_cons in H |- *.
    cbn [flat_map List.filter]. unfold visit_trace at 1.
    destruct (matched W ref_dir c) eqn:Hm.
    + destruct (compare_pair W ref_dir opts ex c) as [t1 [err | v]] eqn:Hpair;
        [discriminate |].
      simpl in H |- *.
      destruct (IH (acc ++ [v]) out H) as (vs & -> & Hvs & Ht).
      exists (v :: vs). rewrite <- app_assoc. split; [done |].
      split; [constructor; [by rewrite Hpair | done] |]. by rewrite Ht.
    + rewrite warn_then in H |- *. simpl in H |- *.
      destruct (IH acc out H) as (vs & -> & Hvs & Ht).
      exists vs. split; [done |]. split; [done |]. by rewrite Ht.
Qed.

(** The loop returns when the comparisons of the matched candidates do. *)
Lemma compare_ncfiles_loop_returns ref_dir opts ex cands acc :
  Forall (λ c, matched W ref_dir c → returns (compare_pair W ref_dir opts ex c))
    cands →
  returns (compare_ncfiles_loop W ref_dir opts ex cands acc).
Proof.
  intros Hall. revert acc.
  induction Hall as [| c cs Hc _ IH]; intros acc; [done |].
  rewrite compare_ncfiles_loop_cons.
  destruct (matched W ref_dir c) eqn:Hm.
  - destruct (returns_inr _ (Hc I)) as [v Hv].
    rewrite (bind_value _ _ (trace (compare_pair W ref_dir opts ex c)) v).
    + apply (IH (acc ++ [v])).
    + rewrite <- Hv. apply surjective_py.
  - rewrite warn_then. apply (IH acc).
Qed.

(** Every process that the loop spawns compares a candidate with its
    reference, with the options and the exclusions of the call. *)
Lemma compare_ncfiles_loop_spawned ref_dir opts ex cands acc :
  Forall (λ cmd, ∃ c, c ∈ cands
            ∧ cmd = nccmp_command (PPath c) (PPath (reference_of ref_dir c))
                      opts (ex))
    (spawned (trace (compare_ncfiles_loop W ref_dir opts ex cands acc))).
Proof.
  revert acc. induction cands as [| c cs IH]; intros acc; [constructor |].
  rewrite compare_ncfiles_loop_cons.
  assert (∀ t, Forall (λ cmd, ∃ c', c' ∈ cs
            ∧ cmd = nccmp_command (PPath c') (PPath (reference_of ref_dir c'))
                      opts ex) t →
          Forall (λ cmd, ∃ c', c' ∈ c :: cs
            ∧ cmd = nccmp_command (PPath c') (PPath (reference_of ref_dir c'))
                      opts ex) t) as Hweak.
  { intros t Ht. eapply Forall_impl; [exact Ht |].
    intros cmd (c' & Hin & ->). exists c'. split; [by right | done]. }
  destruct (matched W ref_dir c).
  - destruct (compare_nc_nccmp_spawns W (PPath c)
                (PPath (reference_of ref_dir c)) (Given opts) (Given ex))
      as (t1 & Ht1 & Hnone).
    fold (compare_pair W ref_dir opts ex c) in Ht1.
    assert (Forall (λ cmd, ∃ c', c' ∈ c :: cs
              ∧ cmd = nccmp_command (PPath c')
                        (PPath (reference_of ref_dir c')) opts ex)
              (spawned (trace (compare_pair W ref_dir opts ex c)))) as Hhead.
    { rewrite Ht1. simpl. rewrite Hnone. constructor; [| constructor].
      exists c. split; [by left | done]. }
    destruct (compare_pair W ref_dir opts ex c) as [t [err | v]] eqn:Hpair.
    + exact Hhead.
    + simpl. rewrite spawned_app. apply Forall_app. split; [exact Hhead |].
      apply Hweak, IH.
  - rewrite warn_then. simpl. apply Hweak, IH.
Qed.

(** C2, as the code has it: with no candidate and at least one reference
    file, [compare_ncfiles] returns the empty list, and neither spawns a
    process nor warns; with no reference file it raises [IndexError] at
    [reference_files[0]], whatever the candidates, before anything else
    happens. *)
Theorem compare_ncfiles_empty first_reference references o e :
  compare_ncfiles W [] (first_reference :: references) o e = ([], inr [])
  ∧ ∀ candidates, compare_ncfiles W candidates [] o e = ([], inl IndexError).
Proof. split; [reflexivity | intros candidates; reflexivity]. Qed.

(** C3: with a reference list that is not empty, the reference directory
    is the parent of its first file; the candidates are visited in their
    order, each one either compared with the file of its name in that
    directory, the outcome being appended, or, when there is no such
    file, warned about with nothing appended.  So, when the comparisons
    return, the result holds the outcomes of the matched candidates, in
    their order, and is no longer than the candidate list. *)
Theorem compare_ncfiles_matches candidates first_reference references o e :
  let ref_dir := parent first_reference in
  let opts := arg_or default_nccmp_options o in
  let ex := arg_or (Some default_exclude_vars) e in
  Forall (λ c, matched W ref_dir c → returns (compare_pair W ref_dir opts ex c))
    candidates →
  ∃ out,
    compare_ncfiles W candidates (first_reference :: references) o e
    = (flat_map (visit_trace W ref_dir opts ex) candidates, inr out)
    ∧ Forall2 (λ c v, outcome (compare_pair W ref_dir opts ex c) = inr v)
        (List.filter (matched W ref_dir) candidates) out
    ∧ length out = length (List.filter (matched W ref_dir) candidates)
    ∧ (length out ≤ length candidates)%nat.
Proof.
  intros ref_dir opts ex Hall.
  pose proof (compare_ncfiles_loop_returns ref_dir opts ex candidates [] Hall)
    as Hret.
  apply returns_inr in Hret as [out Hout].
  destruct (compare_ncfiles_loop_inr ref_dir opts ex candidates [] out Hout)
    as (vs & -> & Hvs & Ht).
  exists vs. simpl in Hout.
  assert (length vs = length (List.filter (matched W ref_dir) candidates))
    as Hlen by (symmetry; eapply Forall2_length, Hvs).
  split; [| split; [done | split; [done |]]].
  - unfold compare_ncfiles. fold ref_dir opts ex.
    rewrite (surjective_py (compare_ncfiles_loop _ _ _ _ _ _)).
    by rewrite Hout, Ht.
  - rewrite Hlen. apply List.filter_length_le.
Qed.

End Matcher.

(** ** [RestartDiffs] *)

Section Report.

Context (W : World) (candidate_run reference_run : WrfHydroRun).

Lemma compared_true cat :
  compared cat candidate_run reference_run = true
  ↔ restart_of cat candidate_run ≠ [] ∧ restart_of cat reference_run ≠ [].
Proof.
  unfold compared.
  destruct (restart_of cat candidate_run), (restart_of cat reference_run);
    intuition congruence.
Qed.

Lemma compared_false cat :
  compared cat candidate_run reference_run = false
  ↔ restart_of cat candidate_run = [] ∨ restart_of cat reference_run = [].
Proof.
  unfold compared.
  destruct (restart_of cat candidate_run), (restart_of cat reference_run);
    intuition congruence.
Qed.

(** The constructor runs the block of each category in turn. *)
Lemma RestartDiffs_init_blocks o e :
  RestartDiffs_init W candidate_run reference_run o e
  = (let opts := arg_or default_nccmp_options o in
     let ex := arg_or (Some default_exclude_vars) e in
     self <- category_block W candidate_run reference_run opts ex Hydro
               fresh_report ;;
     self <- category_block W candidate_run reference_run opts ex Lsm self ;;
     self <- category_block W candidate_run reference_run opts ex Nudging
               self ;;
     ret self).
Proof.
  unfold RestartDiffs_init, category_block, compared, compare_category,
    fresh_report.
  destruct candidate_run as [ch cl cn], reference_run as [rh rl rn].
  cbn [restart_of restart_hydro restart_lsm restart_nudging].
  destruct ch, rh, cl, rl, cn, rn; reflexivity.
Qed.

Lemma key_of_inj cat cat' : key_of cat = key_of cat' → cat = cat'.
Proof. by destruct cat, cat'. Qed.

Lemma field_of_set_field cat out self :
  field_of cat (set_field cat out self) = Some out.
Proof. by destruct cat. Qed.

Lemma field_of_set_field_ne cat cat' out self :
  cat' ≠ cat → field_of cat' (set_field cat out self) = field_of cat' self.
Proof. by destruct cat, cat'. Qed.

Lemma field_of_with_counts cat d self :
  field_of cat (with_counts d self) = field_of cat self.
Proof. by destruct cat. Qed.

Lemma diff_counts_set_field cat out self :
  diff_counts (set_field cat out self) = diff_counts self.
Proof. by destruct cat. Qed.

Section Blocks.

Context (opts : list string) (ex : option (list string)).

Abbreviation block := (category_block W candidate_run reference_run opts ex).
Abbreviation block_trace := (category_trace W candidate_run reference_run opts ex).
Abbreviation comparison := (compare_category W candidate_run reference_run opts ex).
Abbreviation invariant := (report_invariant W candidate_run reference_run opts ex).

(** What a block that returns has done. *)
Lemma category_block_inr cat self d t self' :
  diff_counts self = Some d →
  block cat self = (t, inr self') →
  t = block_trace cat
  ∧ if compared cat candidate_run reference_run
    then ∃ out, outcome (comparison cat) = inr out
                ∧ self' = with_counts
                            (<[key_of cat := Z.of_nat (count_non_null out)]> d)
                            (set_field cat out self)
    else self' = self.
Proof.
  intros Hd. unfold category_block, category_trace.
  destruct (compared cat candidate_run reference_run).
  - intros H. apply bind_inr in H as (t1 & out & Hcmp & -> & Hout).
    unfold diff_counts_update in Hout |- *.
    rewrite diff_counts_set_field, Hd in Hout |- *. simpl in Hout |- *.
    injection Hout as <-. rewrite app_nil_r, Hcmp. split; [done |].
    exists out. split; [done |]. rewrite diff_count_non_null.
    by destruct cat.
  - rewrite warn_then. simpl. by intros [= <- <-].
Qed.

(** A block returns when its comparison does. *)
Lemma category_block_returns cat self :
  is_Some (diff_counts self) →
  (compared cat candidate_run reference_run → returns (comparison cat)) →
  ∃ self', outcome (block cat self) = inr self'
           ∧ is_Some (diff_counts self').
Proof.
  intros [d Hd] Hcmp. unfold category_block.
  destruct (compared cat candidate_run reference_run).
  - destruct (returns_inr _ (Hcmp I)) as [out Hout].
    rewrite (bind_value _ _ (trace (comparison cat)) out)
      by (rewrite <- Hout; apply surjective_py).
    unfold diff_counts_update. rewrite diff_counts_set_field, Hd. simpl.
    eexists. split; [reflexivity |]. by eexists.
  - rewrite warn_then. simpl. exists self. split; [done |]. by exists d.
Qed.

Lemma report_invariant_fresh : invariant [] fresh_report.
Proof.
  exists ∅. split; [done |]. split.
  - intros cat. rewrite bool_decide_eq_false_2 by apply not_elem_of_nil.
    simpl. split; [by destruct cat | apply lookup_empty].
  - intros k [n Hn]. by rewrite lookup_empty in Hn.
Qed.

(** A block keeps the invariant, with its category done. *)
Lemma report_invariant_step done cat self t self' :
  cat ∉ done →
  invariant done self →
  block cat self = (t, inr self') →
  invariant (done ++ [cat]) self'.
Proof.
  intros Hfresh (d & Hd & Hcats & Hkeys) Hblock.
  destruct (category_block_inr cat self d t self' Hd Hblock) as [_ Hself].
  assert (∀ cat', cat' ≠ cat →
            bool_decide (cat' ∈ done ++ [cat]) = bool_decide (cat' ∈ done))
    as Hother.
  { intros cat' Hne. apply bool_decide_ext.
    rewrite elem_of_app, list_elem_of_singleton. intuition congruence. }
  assert (bool_decide (cat ∈ done ++ [cat]) = true) as Hthis.
  { apply bool_decide_eq_true_2, elem_of_app. right. by left. }
  destruct (compared cat candidate_run reference_run) eqn:Hcompared.
  - destruct Hself as (out & Hout & ->).
    exists (<[key_of cat := Z.of_nat (count_non_null out)]> d).
    split; [done |]. split.
    + intros cat'. destruct (decide (cat' = cat)) as [-> | Hne].
      * rewrite Hthis, Hcompared. simpl. exists out.
        rewrite field_of_with_counts, field_of_set_field, lookup_insert_eq.
        done.
      * rewrite (Hother cat' Hne). specialize (Hcats cat').
        assert (key_of cat ≠ key_of cat') as Hkey
          by (intros Heq; by apply key_of_inj in Heq).
        unfold category_stored, category_unset in Hcats |- *.
        rewrite field_of_with_counts, field_of_set_field_ne by done.
        by rewrite lookup_insert_ne.
    + intros k Hk. destruct (decide (key_of cat = k)) as [<- | Hne].
      * exists cat. split; [| done]. apply elem_of_app. right. by left.
      * rewrite lookup_insert_ne in Hk by done.
        destruct (Hkeys k Hk) as (cat' & Hin & ->).
        exists cat'. split; [| done]. apply elem_of_app. by left.
  - subst self'. exists d. split; [done |]. split.
    + intros cat'. destruct (decide (cat' = cat)) as [-> | Hne].
      * rewrite Hthis, Hcompared. simpl. specialize (Hcats cat).
        by rewrite bool_decide_eq_false_2 in Hcats.
      * rewrite (Hother cat' Hne). apply Hcats.
    + intros k Hk. destruct (Hkeys k Hk) as (cat' & Hin & ->).
      exists cat'. split; [| done]. apply elem_of_app. by left.
Qed.

End Blocks.

(** The object that the constructor returns, and its trace. *)
Lemma RestartDiffs_init_inr o e t obj :
  RestartDiffs_init W candidate_run reference_run o e = (t, inr obj) →
  report_invariant W candidate_run reference_run
    (arg_or default_nccmp_options o) (arg_or (Some default_exclude_vars) e)
    categories obj
  ∧ t = flat_map (category_trace W candidate_run reference_run
                    (arg_or default_nccmp_options o)
                    (arg_or (Some default_exclude_vars) e)) categories.
Proof.
  rewrite RestartDiffs_init_blocks. cbv zeta.
  set (opts := arg_or default_nccmp_options o).
  set (ex := arg_or (Some default_exclude_vars) e).
  intros H.
  apply bind_inr_inv in H as (t1 & self1 & t' & H1 & H & ->).
  apply bind_inr_inv in H as (t2 & self2 & t'' & H2 & H & ->).
  apply bind_inr_inv in H as (t3 & self3 & t4 & H3 & H & ->).
  injection H as <- <-.
  pose proof (report_invariant_fresh opts ex) as Inv0.
  assert (Hydro ∉ ([] : list Category)) as F1 by apply not_elem_of_nil.
  assert (Lsm ∉ [Hydro]) as F2 by (by apply (bool_decide_unpack _)).
  assert (Nudging ∉ [Hydro; Lsm]) as F3 by (by apply (bool_decide_unpack _)).
  pose proof (report_invariant_step opts ex [] Hydro _ _ _ F1 Inv0 H1)
    as Inv1.
  pose proof (report_invariant_step opts ex [Hydro] Lsm _ _ _ F2 Inv1 H2)
    as Inv2.
  pose proof (report_invariant_step opts ex [Hydro; Lsm] Nudging _ _ _
                F3 Inv2 H3) as Inv3.
  split; [exact Inv3 |].
  destruct Inv0 as (d0 & Hd0 & _), Inv1 as (d1 & Hd1 & _),
    Inv2 as (d2 & Hd2 & _).
  destruct (category_block_inr opts ex Hydro _ d0 _ _ Hd0 H1) as [-> _].
  destruct (category_block_inr opts ex Lsm _ d1 _ _ Hd1 H2) as [-> _].
  destruct (category_block_inr opts ex Nudging _ d2 _ _ Hd2 H3) as [-> _].
  simpl. by rewrite !app_nil_r.
Qed.

End Report.

(** ** The properties of [RestartDiffs] *)

(** The constructor returns when the comparisons it makes do. *)
Lemma RestartDiffs_init_returns W candidate_run reference_run o e :
  (∀ cat, compared cat candidate_run reference_run →
          returns (compare_category W candidate_run reference_run
                     (arg_or default_nccmp_options o)
                     (arg_or (Some default_exclude_vars) e) cat)) →
  returns (RestartDiffs_init W candidate_run reference_run o e).
Proof.
  intros Hall. rewrite RestartDiffs_init_blocks. cbv zeta.
  set (opts := arg_or default_nccmp_options o) in *.
  set (ex := arg_or (Some default_exclude_vars) e) in *.
  destruct (category_block_returns W candidate_run reference_run opts ex
              Hydro fresh_report) as (s1 & H1 & Hd1);
    [by eexists | apply Hall |].
  destruct (category_block_returns W candidate_run reference_run opts ex
              Lsm s1 Hd1 (Hall Lsm)) as (s2 & H2 & Hd2).
  destruct (category_block_returns W candidate_run reference_run opts ex
              Nudging s2 Hd2 (Hall Nudging)) as (s3 & H3 & _).
  rewrite (bind_value _ _ _ s1 (eq_trans (surjective_py _)
             (f_equal (pair _) H1))).
  unfold returns. simpl.
  rewrite (bind_value _ _ _ s2 (eq_trans (surjective_py _)
             (f_equal (pair _) H2))).
  simpl.
  rewrite (bind_value _ _ _ s3 (eq_trans (surjective_py _)
             (f_equal (pair _) H3))).
  done.
Qed.

(** C1: in the object that the constructor returns, every category with
    two non-empty collections has, as its attribute, the result sequence
    of [compare_ncfiles] on the two collections, and, in [diff_counts], the
    number of entries of that sequence that are not [None]. *)
Theorem diff_counts_count W candidate_run reference_run o e t obj cat :
  RestartDiffs_init W candidate_run reference_run o e = (t, inr obj) →
  restart_of cat candidate_run ≠ [] →
  restart_of cat reference_run ≠ [] →
  ∃ d out,
    diff_counts obj = Some d
    ∧ outcome (compare_ncfiles W (restart_of cat candidate_run)
                 (restart_of cat reference_run)
                 (Given (arg_or default_nccmp_options o))
                 (Given (arg_or (Some default_exclude_vars) e))) = inr out
    ∧ field_of cat obj = Some out
    ∧ d !! key_of cat = Some (Z.of_nat (count_non_null out)).
Proof.
  intros Hinit Hc Hr.
  destruct (RestartDiffs_init_inr _ _ _ _ _ _ _ Hinit)
    as [(d & Hd & Hcats & _) _].
  specialize (Hcats cat).
  rewrite bool_decide_eq_true_2 in Hcats
    by (destruct cat; by apply (bool_decide_unpack _)).
  rewrite (proj2 (compared_true _ _ cat) (conj Hc Hr)) in Hcats.
  destruct Hcats as (out & Hout & Hfield & Hcount).
  by exists d, out.
Qed.

(** C4: when a collection of a category is empty in the candidate run or
    in the reference run, the constructor makes no comparison for the
    category: its block adds one warning, which names the two collections,
    and nothing else to the trace; the attribute of the category stays
    [None], and [diff_counts] gets no entry for it. *)
Theorem empty_category_skipped W candidate_run reference_run o e t obj cat :
  RestartDiffs_init W candidate_run reference_run o e = (t, inr obj) →
  restart_of cat candidate_run = [] ∨ restart_of cat reference_run = [] →
  field_of cat obj = None
  ∧ (∃ d, diff_counts obj = Some d ∧ d !! key_of cat = None)
  ∧ t = flat_map (category_trace W candidate_run reference_run
                    (arg_or default_nccmp_options o)
                    (arg_or (Some default_exclude_vars) e))
          (categories_before cat)
        ++ [Warn (empty_warning cat)]
        ++ flat_map (category_trace W candidate_run reference_run
                       (arg_or default_nccmp_options o)
                       (arg_or (Some default_exclude_vars) e))
             (categories_after cat).
Proof.
  intros Hinit Hempty. apply compared_false in Hempty.
  destruct (RestartDiffs_init_inr _ _ _ _ _ _ _ Hinit)
    as [(d & Hd & Hcats & _) ->].
  specialize (Hcats cat). rewrite Hempty, andb_false_r in Hcats.
  destruct Hcats as [Hfield Hkey].
  split; [done |]. split; [by exists d |].
  destruct cat; simpl; unfold category_trace at 1 2 3;
    rewrite Hempty; simpl; rewrite ?app_nil_r, <- ?app_assoc; reflexivity.
Qed.

(** C10: in the object that the constructor returns, [diff_counts] is a
    dictionary whose keys are among [hydro], [lsm] and [nudging]; the
    attribute of a category with a key is a list, and the count lies
    between zero and the length of that list; the attribute of a category
    without a key is [None]. *)
Theorem diff_counts_invariant W candidate_run reference_run o e t obj :
  RestartDiffs_init W candidate_run reference_run o e = (t, inr obj) →
  ∃ d : gmap string Z,
    diff_counts obj = Some d
    ∧ dom d ⊆ ({["hydro"; "lsm"; "nudging"]} : gset string)
    ∧ ∀ cat,
        match d !! key_of cat with
        | Some n => ∃ out, field_of cat obj = Some out
                           ∧ 0 ≤ n ≤ Z.of_nat (length out)
        | None => field_of cat obj = None
        end.
Proof.
  intros Hinit.
  destruct (RestartDiffs_init_inr _ _ _ _ _ _ _ Hinit)
    as [(d & Hd & Hcats & Hkeys) _].
  exists d. split; [done |]. split.
  - intros k Hk. apply elem_of_dom in Hk.
    destruct (Hkeys k Hk) as (cat & _ & ->). destruct cat; set_solver.
  - intros cat. specialize (Hcats cat).
    destruct (bool_decide (cat ∈ categories)
              && compared cat candidate_run reference_run).
    + destruct Hcats as (out & _ & Hfield & ->). exists out.
      split; [done |]. pose proof (count_non_null_le out). lia.
    + destruct Hcats as [Hfield ->]. done.
Qed.

(** ** The default arguments *)

Lemma spawned_bind_Forall {A B : Type} (P : list string → Prop)
    (m : Py A) (k : A → Py B) :
  Forall P (spawned (trace m)) →
  (∀ a, Forall P (spawned (trace (k a)))) →
  Forall P (spawned (trace (bind m k))).
Proof.
  destruct m as [t [err | a]]; simpl; intros Hm Hk; [done |].
  rewrite spawned_app. apply Forall_app. split; [done | apply Hk].
Qed.

(** Every process spawned by [compare_ncfiles] runs the command of
    [compare_nc_nccmp] with the options and the exclusions of the call. *)
Lemma compare_ncfiles_spawned W cands refs o e :
  Forall (λ cmd, ∃ c r, cmd = nccmp_command c r
                                (arg_or default_nccmp_options o)
                                (arg_or (Some default_exclude_vars) e))
    (spawned (trace (compare_ncfiles W cands refs o e))).
Proof.
  unfold compare_ncfiles. destruct refs as [| r0 rs]; [constructor |].
  eapply Forall_impl; [apply compare_ncfiles_loop_spawned |].
  intros cmd (c & _ & ->). by eexists _, _.
Qed.

Lemma RestartDiffs_init_spawned W candidate_run reference_run o e :
  Forall (λ cmd, ∃ c r, cmd = nccmp_command c r
                                (arg_or default_nccmp_options o)
                                (arg_or (Some default_exclude_vars) e))
    (spawned (trace (RestartDiffs_init W candidate_run reference_run o e))).
Proof.
  rewrite RestartDiffs_init_blocks. cbv zeta.
  assert (∀ cat self,
            Forall (λ cmd, ∃ c r, cmd = nccmp_command c r
                                          (arg_or default_nccmp_options o)
                                          (arg_or (Some default_exclude_vars) e))
              (spawned (trace (category_block W candidate_run reference_run
                                 (arg_or default_nccmp_options o)
                                 (arg_or (Some default_exclude_vars) e)
                                 cat self)))) as Hblock.
  { intros cat self. unfold category_block.
    destruct (compared cat candidate_run reference_run).
    - apply spawned_bind_Forall.
      + apply (compare_ncfiles_spawned W _ _ (Given _) (Given _)).
      + intros out. unfold diff_counts_update.
        destruct (diff_counts (set_field cat out self)); constructor.
    - rewrite warn_then. constructor. }
  apply spawned_bind_Forall; [apply Hblock |]. intros s1.
  apply spawned_bind_Forall; [apply Hblock |]. intros s2.
  apply spawned_bind_Forall; [apply Hblock |]. intros s3.
  constructor.
Qed.

Lemma default_exclusion_command_form c r opts :
  default_exclusion_command opts
    (nccmp_command c r opts (Some default_exclude_vars)).
Proof.
  exists (py_str c), (py_str r). by rewrite nccmp_command_form.
Qed.

(** C9: the default of [exclude_vars] is the list of nine names in
    [compare_ncfiles] and in [RestartDiffs], so that a call that leaves the
    argument out is the call with that list, and every process it spawns
    has the exclusion word with the nine names; the default is [None] in
    [compare_nc_nccmp], whose command then has no exclusion word. *)
Theorem exclude_vars_defaults :
  default_exclude_vars
  = ["ACMELT"; "ACSNOW"; "SFCRUNOFF"; "UDRUNOFF"; "ACCPRCP"; "ACCECAN";
     "ACCEDIR"; "ACCETRAN"; "qstrmvolrt"]
  ∧ (∀ W cands refs o,
       compare_ncfiles W cands refs o Omitted
       = compare_ncfiles W cands refs o (Given (Some default_exclude_vars))
       ∧ Forall (default_exclusion_command (arg_or default_nccmp_options o))
           (spawned (trace (compare_ncfiles W cands refs o Omitted))))
  ∧ (∀ W candidate_run reference_run o,
       RestartDiffs_init W candidate_run reference_run o Omitted
       = RestartDiffs_init W candidate_run reference_run o
           (Given (Some default_exclude_vars))
       ∧ Forall (default_exclusion_command (arg_or default_nccmp_options o))
           (spawned (trace (RestartDiffs_init W candidate_run reference_run
                              o Omitted))))
  ∧ (∀ W c r o,
       compare_nc_nccmp W c r o Omitted = compare_nc_nccmp W c r o (Given None)
       ∧ spawned (trace (compare_nc_nccmp W c r o Omitted))
         = [ ["nccmp"] ++ arg_or default_nccmp_options o
             ++ ["-S"; py_str c; py_str r] ]).
Proof.
  split; [reflexivity |]. split; [| split].
  - intros W cands refs o. split; [reflexivity |].
    eapply Forall_impl; [apply compare_ncfiles_spawned |].
    intros cmd (c & r & ->). apply default_exclusion_command_form.
  - intros W candidate_run reference_run o. split; [reflexivity |].
    eapply Forall_impl; [apply RestartDiffs_init_spawned |].
    intros cmd (c & r & ->). apply default_exclusion_command_form.
  - intros W c r o. split; [reflexivity |].
    by rewrite compare_nc_nccmp_spawned.
Qed.

(** ** The module at work *)

(** The candidate [a.nc] is equal to its reference. *)
Lemma compare_nc_nccmp_equal_witness :
  compare_nc_nccmp Example.world (PPath (Example.cand "a.nc"))
    (PPath (Example.ref "a.nc")) Omitted Omitted
  = ([Spawn ["nccmp"; "--data"; "--metadata"; "--force"; "--quiet"; "-S";
             "/cand/a.nc"; "/ref/a.nc"]], inr PyNone)
  ∧ py_sum_ones (py_filter None__ne__ [PyNone]) = 0.
Proof.
  destruct (compare_nc_nccmp_equal Example.world
              (PPath (Example.cand "a.nc")) (PPath (Example.ref "a.nc"))
              Omitted Omitted
              {| args := ["nccmp"; "--data"; "--metadata"; "--force";
                          "--quiet"; "-S"; "/cand/a.nc"; "/ref/a.nc"];
                 returncode := 0; stdout := ""; stderr := "" |})
    as (Hcall & _ & Hcount).
  - reflexivity.
  - reflexivity.
  - split; [exact Hcall | exact (Hcount [] [])].
Defined.

(** The tool fails on [c.nc] and prints nothing. *)
Lemma compare_nc_nccmp_degrades_witness :
  compare_nc_nccmp Example.world (PPath (Example.cand "c.nc"))
    (PPath (Example.ref "c.nc")) Omitted Omitted
  = ([Spawn ["nccmp"; "--data"; "--metadata"; "--force"; "--quiet"; "-S";
             "/cand/c.nc"; "/ref/c.nc"];
      ReadTable "";
      Warn "Probleming reading nccmp output to pandas dataframe,returning as subprocess object"],
     inr (PyProc {| args := ["nccmp"; "--data"; "--metadata"; "--force";
                             "--quiet"; "-S"; "/cand/c.nc"; "/ref/c.nc"];
                    returncode := 2; stdout := "";
                    stderr := "nccmp: failed" |})).
Proof.
  apply (compare_nc_nccmp_degrades Example.world
           (PPath (Example.cand "c.nc")) (PPath (Example.ref "c.nc"))
           Omitted Omitted _ "").
  - reflexivity.
  - simpl. lia.
  - reflexivity.
  - reflexivity.
Defined.

(** With a candidate and no reference file, [compare_ncfiles] raises
    instead of returning the empty list. *)
Lemma empty_reference_list_raises :
  compare_ncfiles Example.world [Example.cand "a.nc"] [] Omitted Omitted
  = ([], inl IndexError)
  ∧ outcome (compare_ncfiles Example.world [Example.cand "a.nc"] []
               Omitted Omitted) ≠ inr [].
Proof. split; [reflexivity | discriminate]. Qed.

(** Of the four hydro candidates, [z.nc] has no reference. *)
Lemma compare_ncfiles_matches_witness :
  ∃ out,
    compare_ncfiles Example.world
      (restart_hydro Example.candidate_run)
      (restart_hydro Example.reference_run) Omitted Omitted
    = (flat_map (visit_trace Example.world (Example.abs_path ["ref"])
                   default_nccmp_options (Some default_exclude_vars))
         (restart_hydro Example.candidate_run), inr out)
    ∧ length out = 3%nat.
Proof.
  destruct (compare_ncfiles_matches Example.world
              (restart_hydro Example.candidate_run)
              (Example.ref "a.nc") [Example.ref "b.nc"; Example.ref "c.nc"]
              Omitted Omitted) as (out & Hcall & _ & Hlen & _).
  - repeat constructor; intros _; vm_compute; exact I.
  - exists out. split; [exact Hcall | exact Hlen].
Defined.

(** The hydro category of the example is compared. *)
Lemma diff_counts_count_witness :
  ∃ d out,
    diff_counts Example.diffs = Some d
    ∧ outcome (compare_ncfiles Example.world
                 (restart_hydro Example.candidate_run)
                 (restart_hydro Example.reference_run)
                 (Given default_nccmp_options)
                 (Given (Some default_exclude_vars))) = inr out
    ∧ hydro Example.diffs = Some out
    ∧ d !! "hydro" = Some (Z.of_nat (count_non_null out)).
Proof.
  apply (diff_counts_count Example.world Example.candidate_run
           Example.reference_run Omitted Omitted
           (trace (RestartDiffs_init Example.world Example.candidate_run
                     Example.reference_run Omitted Omitted))
           Example.diffs Hydro).
  - vm_compute. reflexivity.
  - discriminate.
  - discriminate.
Defined.

(** The candidate run of the example has no lsm file. *)
Lemma empty_category_skipped_witness :
  lsm Example.diffs = None
  ∧ (∃ d, diff_counts Example.diffs = Some d ∧ d !! "lsm" = None)
  ∧ In (Warn "length of candidate_sim.restart_lsm or reference_sim.restart_lsm is 0")
      (trace (RestartDiffs_init Example.world Example.candidate_run
                Example.reference_run Omitted Omitted)).
Proof.
  destruct (empty_category_skipped Example.world Example.candidate_run
              Example.reference_run Omitted Omitted
              (trace (RestartDiffs_init Example.world Example.candidate_run
                        Example.reference_run Omitted Omitted))
              Example.diffs Lsm) as (Hfield & Hkey & Htrace).
  - vm_compute. reflexivity.
  - left. reflexivity.
  - split; [exact Hfield |]. split; [exact Hkey |].
    rewrite Htrace. apply in_or_app. right. left. reflexivity.
Defined.

(** The object of the example satisfies the invariant. *)
Lemma diff_counts_invariant_witness :
  ∃ d : gmap string Z,
    diff_counts Example.diffs = Some d
    ∧ dom d ⊆ ({["hydro"; "lsm"; "nudging"]} : gset string)
    ∧ ∀ cat,
        match d !! key_of cat with
        | Some n => ∃ out, field_of cat Example.diffs = Some out
                           ∧ 0 ≤ n ≤ Z.of_nat (length out)
        | None => field_of cat Example.diffs = None
        end.
Proof.
  apply (diff_counts_invariant Example.world Example.candidate_run
           Example.reference_run Omitted Omitted
           (trace (RestartDiffs_init Example.world Example.candidate_run
                     Example.reference_run Omitted Omitted))).
  vm_compute. reflexivity.
Defined.

(** The counts of the example: two of the three compared hydro files
    differ, the nudging file does not, and there is no count for lsm. *)
Example diffs_counts :
  (diff_counts Example.diffs ≫= λ d, d !! "hydro") = Some 2
  ∧ (diff_counts Example.diffs ≫= λ d, d !! "lsm") = None
  ∧ (diff_counts Example.diffs ≫= λ d, d !! "nudging") = Some 0.
Proof. vm_compute. done. Qed.

(** Output that is not UTF-8 is not covered by the [try] block. *)
Example undecodable_output_raises :
  compare_nc_nccmp Example.world (PStr "/cand/d.nc") (PStr "/ref/d.nc")
    Omitted Omitted
  = ([Spawn ["nccmp"; "--data"; "--metadata"; "--force"; "--quiet"; "-S";
             "/cand/d.nc"; "/ref/d.nc"]], inl UnicodeDecodeError).
Proof. reflexivity. Qed.

(** The warnings of the example, in order: the candidate without a
    reference, the output that is no table, the empty category. *)
Example diffs_warnings :
  warnings (trace (RestartDiffs_init Example.world Example.candidate_run
                     Example.reference_run Omitted Omitted))
  = ["/cand/z.ncnot found in /ref";
     "Probleming reading nccmp output to pandas dataframe,returning as subprocess object";
     "length of candidate_sim.restart_lsm or reference_sim.restart_lsm is 0"].
Proof. vm_compute. reflexivity. Qed.

(** The scenario of the specification: of the candidates [a.nc] and
    [z.nc], only [a.nc] has a reference; one comparison, one warning. *)
Example two_candidates_one_reference :
  compare_ncfiles Example.world [Example.cand "a.nc"; Example.cand "z.nc"]
    [Example.ref "a.nc"] Omitted Omitted
  = ([Spawn ["nccmp"; "--data"; "--metadata"; "--force"; "--quiet"; "-S";
             "-x ACMELT,ACSNOW,SFCRUNOFF,UDRUNOFF,ACCPRCP,ACCECAN,ACCEDIR,ACCETRAN,qstrmvolrt";
             "/cand/a.nc"; "/ref/a.nc"];
      Warn "/cand/z.ncnot found in /ref"],
     inr [PyNone]).
Proof. vm_compute. reflexivity. Qed.

(** ** More on [compare_nc_nccmp] *)

Section ComparatorCases.

Context (W : World).

(** The five ways a call can go. *)
Lemma compare_nc_nccmp_cases c r o e :
  compare_nc_nccmp W c r o e
  = let cmd := nccmp_command c r (arg_or default_nccmp_options o)
                 (arg_or None e) in
    match subprocess_run W cmd with
    | inl err => ([Spawn cmd], inl err)
    | inr proc =>
        if decide (returncode proc ≠ 0) then
          match decode_utf8 W (stdout proc) with
          | None => ([Spawn cmd], inl UnicodeDecodeError)
          | Some text =>
              match read_table W text with
              | Some df =>
                  ([Spawn cmd; ReadTable text], inr (PyDataFrame df))
              | None =>
                  ([Spawn cmd; ReadTable text; Warn parse_warning],
                   inr (PyProc proc))
              end
          end
        else ([Spawn cmd], inr PyNone)
    end.
Proof.
  unfold compare_nc_nccmp, run, decode. cbv zeta. simpl.
  destruct (subprocess_run W _) as [err | proc]; simpl; [done |].
  case_decide; [| done].
  destruct (decode_utf8 W (stdout proc)) as [text |]; simpl; [| done].
  by destruct (read_table W text).
Qed.

(** X1: the value returned is [None] exactly when the exit status is zero:
    a process that exits with another status always leaves an entry that
    counts. *)
Theorem compare_nc_nccmp_none_iff c r o e proc v :
  subprocess_run W (nccmp_command c r (arg_or default_nccmp_options o)
                      (arg_or None e)) = inr proc →
  outcome (compare_nc_nccmp W c r o e) = inr v →
  v = PyNone ↔ returncode proc = 0.
Proof.
  rewrite compare_nc_nccmp_cases. cbv zeta. intros ->.
  case_decide as Hrc.
  - destruct (decode_utf8 W (stdout proc)) as [text |]; [| discriminate].
    destruct (read_table W text); simpl; intros [= <-];
      split; intros; congruence.
  - simpl. intros [= <-]. split; [intros _ | done].
    destruct (decide (returncode proc = 0)); [done | contradiction].
Qed.

(** X2: a table that the parser reads is returned as a data frame, and no
    warning is emitted. *)
Theorem compare_nc_nccmp_parsed c r o e proc text df :
  subprocess_run W (nccmp_command c r (arg_or default_nccmp_options o)
                      (arg_or None e)) = inr proc →
  returncode proc ≠ 0 →
  decode_utf8 W (stdout proc) = Some text →
  read_table W text = Some df →
  compare_nc_nccmp W c r o e
  = ([Spawn (nccmp_command c r (arg_or default_nccmp_options o)
               (arg_or None e));
      ReadTable text], inr (PyDataFrame df))
  ∧ warnings (trace (compare_nc_nccmp W c r o e)) = [].
Proof.
  intros Hrun Hrc Hdec Hparse.
  assert (compare_nc_nccmp W c r o e
          = ([Spawn (nccmp_command c r (arg_or default_nccmp_options o)
                       (arg_or None e));
              ReadTable text], inr (PyDataFrame df))) as Heq.
  { rewrite compare_nc_nccmp_cases. cbv zeta. rewrite Hrun.
    case_decide; [| contradiction]. by rewrite Hdec, Hparse. }
  split; [exact Heq | by rewrite Heq].
Qed.

(** X3: the call raises in two cases only: the process cannot be run, and the
    exception is that of [subprocess.run]; or it exits with a status that
    is not zero and its output is not UTF-8, and the exception is
    [UnicodeDecodeError].  In both, nothing but the spawn has happened: no
    warning, no call of the parser. *)
Theorem compare_nc_nccmp_raises_iff c r o e err :
  let cmd := nccmp_command c r (arg_or default_nccmp_options o)
               (arg_or None e) in
  (outcome (compare_nc_nccmp W c r o e) = inl err
   ↔ subprocess_run W cmd = inl err
     ∨ ∃ proc, subprocess_run W cmd = inr proc
               ∧ returncode proc ≠ 0
               ∧ decode_utf8 W (stdout proc) = None
               ∧ err = UnicodeDecodeError)
  ∧ (outcome (compare_nc_nccmp W c r o e) = inl err →
     trace (compare_nc_nccmp W c r o e) = [Spawn cmd]).
Proof.
  intros cmd. rewrite compare_nc_nccmp_cases. cbv zeta. fold cmd.
  destruct (subprocess_run W cmd) as [err' | proc]; simpl.
  - split; [| done]. split.
    + intros [= ->]. by left.
    + intros [[= ->] | (proc & [=] & _)]. done.
  - case_decide as Hrc; simpl.
    + destruct (decode_utf8 W (stdout proc)) as [text |] eqn:Hdec; simpl.
      * destruct (read_table W text); simpl; (split; [| done]); split;
          try done; intros [[=] | (proc' & [= <-] & _ & Hnone & _)];
          congruence.
      * split; [| done]. split.
        -- intros [= <-]. right. by exists proc.
        -- intros [[=] | (proc' & _ & _ & _ & ->)]. done.
    + split; [| done]. split; [done |].
      intros [[=] | (proc' & [= <-] & Hnz & _)]. contradiction.
Qed.

(** X4: an empty list of excluded names is not [None]: the command still gets
    an exclusion word, with no name in it. *)
Theorem compare_nc_nccmp_empty_exclusion c r o :
  spawned (trace (compare_nc_nccmp W c r o (Given (Some []))))
  = [ ["nccmp"] ++ arg_or default_nccmp_options o
      ++ ["-S"; "-x "; py_str c; py_str r] ].
Proof.
  destruct (compare_nc_nccmp_spawns W c r o (Given (Some [])))
    as (t & Htrace & Hrest).
  rewrite Htrace. simpl. rewrite Hrest. f_equal.
  by rewrite nccmp_command_form.
Qed.

End ComparatorCases.

(** ** More on [compare_ncfiles] *)

Lemma warnings_app t1 t2 : warnings (t1 ++ t2) = warnings t1 ++ warnings t2.
Proof. unfold warnings. apply omap_app. Qed.

Lemma bind_assoc {A B C : Type} (m : Py A) (k : A → Py B) (k' : B → Py C) :
  bind (bind m k) k' = bind m (λ a, bind (k a) k').
Proof.
  destruct m as [t [err | a]]; simpl; [done |].
  destruct (k a) as [t' [err | b]]; simpl; [done |].
  by rewrite app_assoc.
Qed.

Lemma bind_outcome_inl {A B : Type} (m : Py A) (k : A → Py B) err :
  outcome (bind m k) = inl err →
  outcome m = inl err ∨ ∃ a, outcome m = inr a ∧ outcome (k a) = inl err.
Proof.
  destruct m as [t [err' | a]]; simpl; intros H.
  - left. by injection H as ->.
  - right. exists a. split; [reflexivity | exact H].
Qed.

Lemma bind_ext {A B : Type} (m : Py A) (k k' : A → Py B) :
  (∀ a, k a = k' a) → bind m k = bind m k'.
Proof.
  intros Hk. destruct m as [t [err | a]]; simpl; [done |]. by rewrite Hk.
Qed.

Section MatcherMore.

Context (W : World) (ref_dir : Path) (opts : list string)
  (ex : option (list string)).

Abbreviation loop := (compare_ncfiles_loop W ref_dir opts ex).
Abbreviation pair := (compare_pair W ref_dir opts ex).
Abbreviation visit := (visit_trace W ref_dir opts ex).

(** What a comparison that returns adds to the trace. *)
Lemma compare_pair_counts c v :
  outcome (pair c) = inr v →
  length (spawned (trace (pair c))) = 1%nat
  ∧ length (parsed (trace (pair c))) = count_non_null [v]
  ∧ length (warnings (trace (pair c))) = length (List.filter is_proc [v]).
Proof.
  unfold compare_pair. rewrite compare_nc_nccmp_cases. cbv zeta.
  destruct (subprocess_run W _) as [err | proc]; [discriminate |].
  case_decide.
  - destruct (decode_utf8 W (stdout proc)) as [text |]; [| discriminate].
    destruct (read_table W text); intros [= <-]; done.
  - intros [= <-]. done.
Qed.

(** The value of a comparison counts exactly when the exit status of its
    process is not zero. *)
Lemma compare_pair_differs c v :
  outcome (pair c) = inr v →
  negb (bool_decide (v = PyNone)) = differs W ref_dir opts ex c.
Proof.
  unfold compare_pair, differs. rewrite compare_nc_nccmp_cases. cbv zeta.
  simpl arg_or.
  destruct (subprocess_run W _) as [err | proc]; [discriminate |].
  destruct (decide (returncode proc ≠ 0)) as [Hrc | Hrc].
  - rewrite (bool_decide_eq_true_2 _ Hrc).
    destruct (decode_utf8 W (stdout proc)) as [text |]; [| discriminate].
    destruct (read_table W text); intros [= <-]; done.
  - rewrite (bool_decide_eq_false_2 _ Hrc). intros [= <-]. done.
Qed.

Lemma visits_accounting cands out :
  Forall2 (λ c v, outcome (pair c) = inr v)
    (List.filter (matched W ref_dir) cands) out →
  length (spawned (flat_map visit cands)) = length out
  ∧ length (parsed (flat_map visit cands)) = count_non_null out
  ∧ (length (warnings (flat_map visit cands)) + length out
     = length cands + length (List.filter is_proc out))%nat.
Proof.
  revert out. induction cands as [| c cs IH]; intros out Hout.
  - inversion Hout. done.
  - cbn [flat_map List.filter] in Hout |- *. unfold visit_trace at 1 3 5.
    rewrite spawned_app, parsed_app, warnings_app, !length_app.
    destruct (matched W ref_dir c).
    + inversion Hout as [| c' v cs' out' Hv Hrest]; subst.
      destruct (IH out' Hrest) as (IHs & IHp & IHw).
      destruct (compare_pair_counts c v Hv) as (Hs & Hp & Hw).
      change (v :: out') with ([v] ++ out').
      rewrite count_non_null_app, List.filter_app, !length_app.
      change (length [v]) with 1%nat.
      change (length (c :: cs)) with (S (length cs)). lia.
    + destruct (IH out Hout) as (IHs & IHp & IHw). simpl. lia.
Qed.

(** The accumulator is a prefix of the result, and changes nothing else. *)
Lemma compare_ncfiles_loop_acc cands acc :
  loop cands acc
  = (trace (loop cands []),
     match outcome (loop cands []) with
     | inl err => inl err
     | inr out => inr (acc ++ out)
     end).
Proof.
  revert acc. induction cands as [| c cs IH]; intros acc.
  - simpl. by rewrite app_nil_r.
  - rewrite !compare_ncfiles_loop_cons. destruct (matched W ref_dir c).
    + destruct (pair c) as [t [err | v]]; simpl; [done |].
      rewrite (IH (acc ++ [v])), (IH [v]). simpl.
      destruct (outcome (loop cs [])); [done |]. by rewrite <- app_assoc.
    + rewrite !warn_then. rewrite (IH acc). done.
Qed.

(** The loop on a concatenation is the loop on its first part followed
    by the loop on the second. *)
Lemma compare_ncfiles_loop_app cands1 cands2 acc :
  loop (cands1 ++ cands2) acc = bind (loop cands1 acc) (loop cands2).
Proof.
  revert acc. induction cands1 as [| c cs IH]; intros acc.
  - simpl. by destruct (loop cands2 acc).
  - rewrite <- app_comm_cons, !compare_ncfiles_loop_cons.
    destruct (matched W ref_dir c).
    + rewrite bind_assoc. apply bind_ext. intros v. apply IH.
    + rewrite bind_assoc. apply bind_ext. intros _. apply IH.
Qed.

Lemma compare_ncfiles_loop_unmatched cands acc :
  Forall (λ c, matched W ref_dir c = false) cands →
  loop cands acc = (missing_warnings ref_dir cands, inr acc).
Proof.
  induction 1 as [| c cs Hc _ IH]; [done |].
  rewrite compare_ncfiles_loop_cons, Hc, warn_then, IH. done.
Qed.

End MatcherMore.

(** X5: one process per entry of the result, one call of the parser per entry
    that is not [None], and one warning per candidate without a reference
    and per entry that is a process object. *)
Theorem compare_ncfiles_accounting W candidates references o e t out :
  compare_ncfiles W candidates references o e = (t, inr out) →
  length (spawned t) = length out
  ∧ length (parsed t) = count_non_null out
  ∧ (length (warnings t) + length out
     = length candidates + length (List.filter is_proc out))%nat.
Proof.
  unfold compare_ncfiles. destruct references as [| r0 rs]; [discriminate |].
  intros H.
  assert (outcome (compare_ncfiles_loop W (parent r0)
                     (arg_or default_nccmp_options o)
                     (arg_or (Some default_exclude_vars) e) candidates [])
          = inr out) as Hout by (by rewrite H).
  destruct (compare_ncfiles_loop_inr W _ _ _ _ _ _ Hout)
    as (vs & -> & Hvs & Ht).
  rewrite H in Ht. simpl in Ht. subst t.
  by apply visits_accounting.
Qed.

(** X6: the comparison of a concatenation of candidate lists is the
    comparison of the first followed by that of the second: traces and
    results are concatenated. *)
Theorem compare_ncfiles_app W candidates1 candidates2 references o e
    t1 out1 t2 out2 :
  compare_ncfiles W candidates1 references o e = (t1, inr out1) →
  compare_ncfiles W candidates2 references o e = (t2, inr out2) →
  compare_ncfiles W (candidates1 ++ candidates2) references o e
  = (t1 ++ t2, inr (out1 ++ out2)).
Proof.
  unfold compare_ncfiles. destruct references as [| r0 rs]; [discriminate |].
  intros H1 H2. rewrite compare_ncfiles_loop_app, H1. simpl.
  rewrite compare_ncfiles_loop_acc, H2. done.
Qed.

(** X7: the first comparison that raises ends the call with its exception:
    the results gathered so far are lost, and the candidates after it are
    not visited. *)
Theorem compare_ncfiles_fails_fast W before candidate after first_reference
    references o e t out tc err :
  compare_ncfiles W before (first_reference :: references) o e
  = (t, inr out) →
  matched W (parent first_reference) candidate = true →
  compare_pair W (parent first_reference) (arg_or default_nccmp_options o)
    (arg_or (Some default_exclude_vars) e) candidate = (tc, inl err) →
  compare_ncfiles W (before ++ candidate :: after)
    (first_reference :: references) o e
  = (t ++ tc, inl err).
Proof.
  unfold compare_ncfiles. intros Hbefore Hm Hpair.
  rewrite compare_ncfiles_loop_app, (bind_value _ _ _ _ Hbefore).
  rewrite compare_ncfiles_loop_cons, Hm, Hpair. done.
Qed.

(** Of the reference list, only the directory of the first file is used:
    the other files, and the name of the first, change nothing. *)
Theorem compare_ncfiles_reference_directory W candidates first_reference
    references first_reference' references' o e :
  parent first_reference = parent first_reference' →
  compare_ncfiles W candidates (first_reference :: references) o e
  = compare_ncfiles W candidates (first_reference' :: references') o e.
Proof. unfold compare_ncfiles. by intros ->. Qed.

(** X8: when no candidate has a file of its name in the reference directory,
    the call spawns nothing and returns the empty list, after a warning
    for each candidate, in their order. *)
Theorem compare_ncfiles_unmatched W candidates first_reference references
    o e :
  Forall (λ c, matched W (parent first_reference) c = false) candidates →
  compare_ncfiles W candidates (first_reference :: references) o e
  = (missing_warnings (parent first_reference) candidates, inr []).
Proof. intros Hall. by apply compare_ncfiles_loop_unmatched. Qed.

(** ** More on [RestartDiffs] *)

Lemma count_non_null_differs W ref_dir opts ex cands out :
  Forall2 (λ c v, outcome (compare_pair W ref_dir opts ex c) = inr v)
    cands out →
  count_non_null out
  = length (List.filter (differs W ref_dir opts ex) cands).
Proof.
  induction 1 as [| c v cs out' Hv _ IH]; [done |].
  unfold count_non_null in IH |- *. simpl.
  rewrite (compare_pair_differs _ _ _ _ _ _ Hv).
  destruct (differs W ref_dir opts ex c); simpl; by rewrite IH.
Qed.

Lemma filter_filter_andb {A : Type} (f g : A → bool) (l : list A) :
  List.filter g (List.filter f l) = List.filter (λ x, f x && g x) l.
Proof.
  induction l as [| x l IH]; [done |]. simpl.
  destruct (f x); simpl; [destruct (g x) |]; by rewrite IH.
Qed.

(** X12: what a count means: the count of a compared category is the number of
    its candidates that have a reference and whose process exits with a
    status that is not zero. *)
Theorem diff_counts_meaning W candidate_run reference_run o e t obj cat
    first_reference rest :
  RestartDiffs_init W candidate_run reference_run o e = (t, inr obj) →
  restart_of cat candidate_run ≠ [] →
  restart_of cat reference_run = first_reference :: rest →
  ∃ d,
    diff_counts obj = Some d
    ∧ d !! key_of cat
      = Some (Z.of_nat (length (List.filter
           (λ c, matched W (parent first_reference) c
                 && differs W (parent first_reference)
                      (arg_or default_nccmp_options o)
                      (arg_or (Some default_exclude_vars) e) c)
           (restart_of cat candidate_run)))).
Proof.
  intros Hinit Hc Hr.
  destruct (RestartDiffs_init_inr _ _ _ _ _ _ _ Hinit)
    as [(d & Hd & Hcats & _) _].
  specialize (Hcats cat).
  rewrite bool_decide_eq_true_2 in Hcats
    by (destruct cat; by apply (bool_decide_unpack _)).
  assert (compared cat candidate_run reference_run = true) as Hcompared.
  { apply compared_true. split; [done | by rewrite Hr]. }
  rewrite Hcompared in Hcats. destruct Hcats as (out & Hout & _ & Hcount).
  exists d. split; [done |]. rewrite Hcount. do 2 f_equal.
  unfold compare_category, compare_ncfiles in Hout. rewrite Hr in Hout.
  simpl arg_or in Hout.
  destruct (compare_ncfiles_loop_inr W _ _ _ _ _ _ Hout)
    as (vs & -> & Hvs & _).
  simpl. rewrite (count_non_null_differs _ _ _ _ _ _ Hvs).
  by rewrite filter_filter_andb.
Qed.

(** X13: the categories are processed once each, hydro first, then lsm, then
    nudging: the trace of the constructor is made of the three blocks in
    that order. *)
Theorem RestartDiffs_init_order W candidate_run reference_run o e t obj :
  RestartDiffs_init W candidate_run reference_run o e = (t, inr obj) →
  t = category_trace W candidate_run reference_run
        (arg_or default_nccmp_options o)
        (arg_or (Some default_exclude_vars) e) Hydro
      ++ category_trace W candidate_run reference_run
           (arg_or default_nccmp_options o)
           (arg_or (Some default_exclude_vars) e) Lsm
      ++ category_trace W candidate_run reference_run
           (arg_or default_nccmp_options o)
           (arg_or (Some default_exclude_vars) e) Nudging.
Proof.
  intros Hinit.
  destruct (RestartDiffs_init_inr _ _ _ _ _ _ _ Hinit) as [_ ->].
  simpl. by rewrite app_nil_r.
Qed.

(** ** More on the arguments *)

(** X14: when [nccmp_options] is left out, each of the three functions runs the
    tool with the same four options: every command starts with [nccmp
    --data --metadata --force --quiet -S]. *)
Theorem nccmp_options_defaults W :
  (∀ c r e,
     Forall default_options_command
       (spawned (trace (compare_nc_nccmp W c r Omitted e))))
  ∧ (∀ cands refs e,
       Forall default_options_command
         (spawned (trace (compare_ncfiles W cands refs Omitted e))))
  ∧ (∀ candidate_run reference_run e,
       Forall default_options_command
         (spawned (trace (RestartDiffs_init W candidate_run reference_run
                            Omitted e)))).
Proof.
  assert (∀ c r ex,
            default_options_command
              (nccmp_command c r default_nccmp_options ex)) as Hform.
  { intros c r ex. rewrite nccmp_command_form. by eexists. }
  split; [| split].
  - intros c r e. rewrite compare_nc_nccmp_spawned.
    constructor; [| constructor]. rewrite <- nccmp_command_form.
    apply Hform.
  - intros cands refs e.
    eapply Forall_impl; [apply compare_ncfiles_spawned |].
    intros cmd (c & r & ->). apply Hform.
  - intros candidate_run reference_run e.
    eapply Forall_impl; [apply RestartDiffs_init_spawned |].
    intros cmd (c & r & ->). apply Hform.
Qed.

(** X15: giving [None] for [exclude_vars] to [compare_ncfiles] or to
    [RestartDiffs] switches the exclusions off: no command that they spawn
    has an exclusion word. *)
Theorem exclude_vars_none W o :
  (∀ cands refs,
     Forall (plain_command (arg_or default_nccmp_options o))
       (spawned (trace (compare_ncfiles W cands refs o (Given None)))))
  ∧ (∀ candidate_run reference_run,
       Forall (plain_command (arg_or default_nccmp_options o))
         (spawned (trace (RestartDiffs_init W candidate_run reference_run o
                            (Given None))))).
Proof.
  assert (∀ c r, plain_command (arg_or default_nccmp_options o)
                   (nccmp_command c r (arg_or default_nccmp_options o) None))
    as Hform.
  { intros c r. rewrite nccmp_command_form. by eexists _, _. }
  split.
  - intros cands refs.
    eapply Forall_impl; [apply compare_ncfiles_spawned |].
    intros cmd (c & r & ->). apply Hform.
  - intros candidate_run reference_run.
    eapply Forall_impl; [apply RestartDiffs_init_spawned |].
    intros cmd (c & r & ->). apply Hform.
Qed.

(** X16: files are matched by name: the reference of a candidate has the name
    of the candidate and lies in the reference directory itself, wherever
    the candidate is; a candidate without a name (the root, or the empty
    path) has the reference directory as its reference. *)
Theorem reference_of_name ref_dir candidate :
  (name candidate ≠ "" →
   name (reference_of ref_dir candidate) = name candidate
   ∧ parent (reference_of ref_dir candidate) = ref_dir)
  ∧ (name candidate = "" → reference_of ref_dir candidate = ref_dir).
Proof.
  unfold reference_of, joinpath. split; intros Hname.
  - rewrite decide_False by done. unfold name at 1, parent. simpl.
    rewrite List.last_last, List.removelast_last. by destruct ref_dir.
  - by rewrite decide_True.
Qed.

(** ** [diff_namelist] *)

Lemma call_keywords_Some kwargs keywords :
  call_keywords kwargs = Some keywords →
  keywords = <["ignore_order" := KwBool true]> kwargs
  ∧ ∀ k, In k given_names → kwargs !! k = None.
Proof.
  unfold call_keywords.
  destruct (existsb _ given_names) eqn:Hex; [discriminate |].
  intros [= <-]. split; [done |]. intros k Hk.
  destruct (kwargs !! k) as [v |] eqn:Hv; [| done].
  assert (existsb (λ k, bool_decide (is_Some (kwargs !! k))) given_names
          = true) as Htrue.
  { apply existsb_exists. exists k. split; [done |].
    apply bool_decide_eq_true_2. rewrite Hv. by eexists. }
  congruence.
Qed.

Lemma call_keywords_None kwargs :
  call_keywords kwargs = None
  ↔ ∃ k, In k given_names ∧ is_Some (kwargs !! k).
Proof.
  unfold call_keywords.
  destruct (existsb _ given_names) eqn:Hex.
  - split; [intros _ | done].
    apply existsb_exists in Hex as (k & Hin & Hk). exists k.
    split; [done |]. by apply bool_decide_eq_true_1 in Hk.
  - split; [discriminate |]. intros (k & Hin & Hk).
    assert (existsb (λ k, bool_decide (is_Some (kwargs !! k))) given_names
            = true) as Htrue.
    { apply existsb_exists. exists k. split; [done |].
      by apply bool_decide_eq_true_2. }
    congruence.
Qed.

(** X17: [DeepDiff] is only ever called with [ignore_order=True]: the keywords
    it gets are those of the caller and this one, and the caller gave no
    [ignore_order] of its own. *)
Theorem diff_namelist_keywords L namelist1 namelist2 kwargs keywords :
  CallDeepDiff keywords ∈ fst (diff_namelist L namelist1 namelist2 kwargs) →
  keywords !! "ignore_order" = Some (KwBool true)
  ∧ kwargs !! "ignore_order" = None
  ∧ ∀ k, k ≠ "ignore_order" → keywords !! k = kwargs !! k.
Proof.
  unfold diff_namelist.
  destruct (f90nml_read L namelist1) as [e1 | n1]; simpl.
  { intros H%list_elem_of_singleton. discriminate. }
  destruct (f90nml_read L namelist2) as [e2 | n2]; simpl.
  { rewrite !elem_of_cons, elem_of_nil. intros [[=] | [[=] | []]]. }
  destruct (call_keywords kwargs) as [kw |] eqn:Hkw; simpl.
  - rewrite !elem_of_cons, elem_of_nil.
    intros [[=] | [[=] | [[= ->] | []]]].
    destruct (call_keywords_Some _ _ Hkw) as [-> Hfree].
    split; [apply lookup_insert_eq |]. split.
    + apply Hfree. by left.
    + intros k Hk. by apply lookup_insert_ne.
  - rewrite !elem_of_cons, elem_of_nil. intros [[=] | [[=] | []]].
Qed.

(** ** The properties at work *)

(** The process of [b.nc] exits with status 1, and the value is a table. *)
Lemma compare_nc_nccmp_none_iff_witness :
  PyDataFrame {| columns := ["Variable"; "Group"; "Count"];
                 rows := [["qlink1"; "/"; "12"]] |} = PyNone
  ↔ 1 = 0.
Proof.
  apply (compare_nc_nccmp_none_iff Example.world
           (PPath (Example.cand "b.nc")) (PPath (Example.ref "b.nc"))
           Omitted Omitted
           {| args := ["nccmp"; "--data"; "--metadata"; "--force"; "--quiet";
                       "-S"; "/cand/b.nc"; "/ref/b.nc"];
              returncode := 1; stdout := Example.table_text; stderr := "" |}).
  - reflexivity.
  - vm_compute. reflexivity.
Defined.

Lemma compare_nc_nccmp_parsed_witness :
  compare_nc_nccmp Example.world (PPath (Example.cand "b.nc"))
    (PPath (Example.ref "b.nc")) Omitted Omitted
  = ([Spawn ["nccmp"; "--data"; "--metadata"; "--force"; "--quiet"; "-S";
             "/cand/b.nc"; "/ref/b.nc"];
      ReadTable Example.table_text],
     inr (PyDataFrame {| columns := ["Variable"; "Group"; "Count"];
                         rows := [["qlink1"; "/"; "12"]] |}))
  ∧ warnings (trace (compare_nc_nccmp Example.world
                       (PPath (Example.cand "b.nc"))
                       (PPath (Example.ref "b.nc")) Omitted Omitted)) = [].
Proof.
  apply (compare_nc_nccmp_parsed Example.world
           (PPath (Example.cand "b.nc")) (PPath (Example.ref "b.nc"))
           Omitted Omitted
           {| args := ["nccmp"; "--data"; "--metadata"; "--force"; "--quiet";
                       "-S"; "/cand/b.nc"; "/ref/b.nc"];
              returncode := 1; stdout := Example.table_text; stderr := "" |}
           Example.table_text).
  - reflexivity.
  - simpl. lia.
  - reflexivity.
  - vm_compute. reflexivity.
Defined.

(** The output for [d.nc] is not UTF-8. *)
Lemma compare_nc_nccmp_raises_iff_witness :
  trace (compare_nc_nccmp Example.world (PPath (Example.cand "d.nc"))
           (PPath (Example.ref "d.nc")) Omitted Omitted)
  = [Spawn ["nccmp"; "--data"; "--metadata"; "--force"; "--quiet"; "-S";
            "/cand/d.nc"; "/ref/d.nc"]].
Proof.
  apply (compare_nc_nccmp_raises_iff Example.world
           (PPath (Example.cand "d.nc")) (PPath (Example.ref "d.nc"))
           Omitted Omitted UnicodeDecodeError).
  reflexivity.
Defined.

Lemma compare_ncfiles_accounting_witness :
  length (spawned (trace (compare_ncfiles Example.world
                            (restart_hydro Example.candidate_run)
                            (restart_hydro Example.reference_run)
                            Omitted Omitted))) = 3%nat
  ∧ length (parsed (trace (compare_ncfiles Example.world
                             (restart_hydro Example.candidate_run)
                             (restart_hydro Example.reference_run)
                             Omitted Omitted))) = 2%nat
  ∧ (length (warnings (trace (compare_ncfiles Example.world
                                (restart_hydro Example.candidate_run)
                                (restart_hydro Example.reference_run)
                                Omitted Omitted))) + 3 = 4 + 1)%nat.
Proof.
  apply (compare_ncfiles_accounting Example.world
           (restart_hydro Example.candidate_run)
           (restart_hydro Example.reference_run) Omitted Omitted _
           [PyNone;
            PyDataFrame {| columns := ["Variable"; "Group"; "Count"];
                           rows := [["qlink1"; "/"; "12"]] |};
            PyProc {| args := ["nccmp"; "--data"; "--metadata"; "--force";
                               "--quiet"; "-S";
                               "-x ACMELT,ACSNOW,SFCRUNOFF,UDRUNOFF,ACCPRCP,ACCECAN,ACCEDIR,ACCETRAN,qstrmvolrt";
                               "/cand/c.nc"; "/ref/c.nc"];
                      returncode := 2; stdout := "";
                      stderr := "nccmp: failed" |}]).
  vm_compute. reflexivity.
Defined.

Lemma compare_ncfiles_app_witness :
  outcome (compare_ncfiles Example.world
             ([Example.cand "a.nc"; Example.cand "z.nc"]
              ++ [Example.cand "a.nc"])
             [Example.ref "a.nc"] Omitted Omitted)
  = inr ([PyNone] ++ [PyNone]).
Proof.
  rewrite (compare_ncfiles_app Example.world
             [Example.cand "a.nc"; Example.cand "z.nc"] [Example.cand "a.nc"]
             [Example.ref "a.nc"] Omitted Omitted
             (trace (compare_ncfiles Example.world
                       [Example.cand "a.nc"; Example.cand "z.nc"]
                       [Example.ref "a.nc"] Omitted Omitted))
             [PyNone]
             (trace (compare_ncfiles Example.world [Example.cand "a.nc"]
                       [Example.ref "a.nc"] Omitted Omitted))
             [PyNone]).
  - reflexivity.
  - vm_compute. reflexivity.
  - vm_compute. reflexivity.
Defined.

(** After [a.nc], the comparison of [d.nc] raises, and [b.nc] is not
    visited. *)
Lemma compare_ncfiles_fails_fast_witness :
  outcome (compare_ncfiles Example.world
             ([Example.cand "a.nc"]
              ++ Example.cand "d.nc" :: [Example.cand "b.nc"])
             [Example.ref "a.nc"] Omitted Omitted)
  = inl UnicodeDecodeError.
Proof.
  rewrite (compare_ncfiles_fails_fast Example.world [Example.cand "a.nc"]
             (Example.cand "d.nc") [Example.cand "b.nc"] (Example.ref "a.nc")
             [] Omitted Omitted
             (trace (compare_ncfiles Example.world [Example.cand "a.nc"]
                       [Example.ref "a.nc"] Omitted Omitted))
             [PyNone]
             (trace (compare_pair Example.world (Example.abs_path ["ref"])
                       default_nccmp_options (Some default_exclude_vars)
                       (Example.cand "d.nc")))
             UnicodeDecodeError).
  - reflexivity.
  - vm_compute. reflexivity.
  - vm_compute. reflexivity.
  - vm_compute. reflexivity.
Defined.

Lemma compare_ncfiles_reference_directory_witness :
  compare_ncfiles Example.world (restart_hydro Example.candidate_run)
    [Example.ref "a.nc"; Example.ref "b.nc"] Omitted Omitted
  = compare_ncfiles Example.world (restart_hydro Example.candidate_run)
      [Example.ref "unlisted.nc"] Omitted Omitted.
Proof.
  apply (compare_ncfiles_reference_directory Example.world).
  reflexivity.
Defined.

(** No candidate of the example has a file in the directory [/cand]. *)
Lemma compare_ncfiles_unmatched_witness :
  compare_ncfiles Example.world
    [Example.cand "a.nc"; Example.cand "b.nc"] [Example.cand "a.nc"]
    Omitted Omitted
  = ([Warn "/cand/a.ncnot found in /cand";
      Warn "/cand/b.ncnot found in /cand"], inr []).
Proof.
  apply (compare_ncfiles_unmatched Example.world
           [Example.cand "a.nc"; Example.cand "b.nc"] (Example.cand "a.nc")
           [] Omitted Omitted).
  repeat constructor.
Defined.

(** Of the hydro candidates of the example, [b.nc] and [c.nc] have a
    reference and a process that exits with a status that is not zero. *)
Lemma diff_counts_meaning_witness :
  ∃ d, diff_counts Example.diffs = Some d ∧ d !! "hydro" = Some 2.
Proof.
  destruct (diff_counts_meaning Example.world Example.candidate_run
              Example.reference_run Omitted Omitted
              (trace (RestartDiffs_init Example.world Example.candidate_run
                        Example.reference_run Omitted Omitted))
              Example.diffs Hydro (Example.ref "a.nc")
              [Example.ref "b.nc"; Example.ref "c.nc"])
    as (d & Hd & Hcount).
  - vm_compute. reflexivity.
  - discriminate.
  - reflexivity.
  - exists d. split; [exact Hd | exact Hcount].
Defined.

Lemma RestartDiffs_init_order_witness :
  trace (RestartDiffs_init Example.world Example.candidate_run
           Example.reference_run Omitted Omitted)
  = category_trace Example.world Example.candidate_run Example.reference_run
      default_nccmp_options (Some default_exclude_vars) Hydro
    ++ category_trace Example.world Example.candidate_run
         Example.reference_run default_nccmp_options
         (Some default_exclude_vars) Lsm
    ++ category_trace Example.world Example.candidate_run
         Example.reference_run default_nccmp_options
         (Some default_exclude_vars) Nudging.
Proof.
  apply (RestartDiffs_init_order Example.world Example.candidate_run
           Example.reference_run Omitted Omitted _ Example.diffs).
  vm_compute. reflexivity.
Defined.

Lemma reference_of_name_witness :
  name (reference_of (Example.abs_path ["ref"]) (Example.cand "a.nc"))
  = "a.nc"
  ∧ parent (reference_of (Example.abs_path ["ref"]) (Example.cand "a.nc"))
    = Example.abs_path ["ref"].
Proof.
  apply (reference_of_name (Example.abs_path ["ref"]) (Example.cand "a.nc")).
  discriminate.
Defined.

(** With a keyword of its own, the caller reaches [DeepDiff] with that
    keyword and [ignore_order]. *)
Lemma diff_namelist_keywords_witness :
  (<["ignore_order" := KwBool true]> {["significant_digits" := KwInt 3]}
     : gmap string KwValue) !! "ignore_order" = Some (KwBool true)
  ∧ ({["significant_digits" := KwInt 3]} : gmap string KwValue)
      !! "ignore_order" = None
  ∧ ∀ k, k ≠ "ignore_order" →
         (<["ignore_order" := KwBool true]>
            {["significant_digits" := KwInt 3]} : gmap string KwValue) !! k
         = ({["significant_digits" := KwInt 3]} : gmap string KwValue) !! k.
Proof.
  apply (diff_namelist_keywords NamelistExample.libraries "a.nml" "b.nml"
           {["significant_digits" := KwInt 3]}).
  vm_compute. do 2 right. left.
Defined.


(** ** The exceptions of [compare_ncfiles] and of the constructor *)

Lemma bind_outcome_inr {A B : Type} (m : Py A) (k : A → Py B) b :
  outcome (bind m k) = inr b →
  ∃ a, outcome m = inr a ∧ outcome (k a) = inr b.
Proof.
  destruct m as [t [err | a]]; simpl; intros H; [discriminate |].
  by exists a.
Qed.

Section System.

Context (is_file_sys : Path → PyExc + bool) (W : World).

Section SystemLoop.

Context (ref_dir : Path) (opts : list string) (ex : option (list string)).

Abbreviation loop_sys :=
  (compare_ncfiles_loop_sys is_file_sys W ref_dir opts ex).

Lemma compare_ncfiles_loop_sys_cons c cs acc :
  loop_sys (c :: cs) acc
  = match is_file_sys (reference_of ref_dir c) with
    | inl err => ([], inl err)
    | inr true =>
        v <- compare_pair W ref_dir opts ex c ;; loop_sys cs (acc ++ [v])
    | inr false => warn (missing_warning ref_dir c) ;;; loop_sys cs acc
    end.
Proof.
  cbn [compare_ncfiles_loop_sys]. fold (reference_of ref_dir c).
  destruct (is_file_sys (reference_of ref_dir c)) as [err | found];
    [reflexivity |].
  change ([], inr found) with (@ret bool found). rewrite bind_ret_l.
  by destruct found.
Qed.

(** When [is_file] answers for every candidate, the loop is that of the
    world that holds the answers. *)
Lemma compare_ncfiles_loop_sys_agrees cands acc :
  Forall (λ c, is_file_sys (reference_of ref_dir c)
               = inr (matched W ref_dir c)) cands →
  loop_sys cands acc = compare_ncfiles_loop W ref_dir opts ex cands acc.
Proof.
  intros Hall. revert acc.
  induction Hall as [| c cs Hc _ IH]; intros acc; [done |].
  rewrite compare_ncfiles_loop_sys_cons, compare_ncfiles_loop_cons, Hc.
  destruct (matched W ref_dir c).
  - apply bind_ext. intros v. apply IH.
  - apply bind_ext. intros _. apply IH.
Qed.

(** An exception of the loop is that of the visit of a candidate. *)
Lemma compare_ncfiles_loop_sys_inl cands acc err :
  outcome (loop_sys cands acc) = inl err →
  ∃ c, c ∈ cands ∧ visit_raises is_file_sys W ref_dir opts ex c err.
Proof.
  revert acc. induction cands as [| c cs IH]; intros acc; [discriminate |].
  rewrite compare_ncfiles_loop_sys_cons. unfold visit_raises.
  destruct (is_file_sys (reference_of ref_dir c)) as [err' | [|]] eqn:Hfile.
  - intros [= ->]. exists c. split; [by left |]. rewrite Hfile. by left.
  - intros H. apply bind_outcome_inl in H as [H | (v & _ & H)].
    + exists c. split; [by left |]. rewrite Hfile. by right.
    + destruct (IH _ H) as (c' & Hin & Hc'). exists c'.
      split; [by right | done].
  - rewrite warn_then. simpl. intros H.
    destruct (IH _ H) as (c' & Hin & Hc'). exists c'.
    split; [by right | done].
Qed.

(** A comparison whose process runs, and whose output decodes unless the
    exit status is zero, returns. *)
Lemma compare_pair_safe c :
  is_file_sys (reference_of ref_dir c) = inr true →
  visit_safe is_file_sys W ref_dir opts ex c →
  returns (compare_pair W ref_dir opts ex c).
Proof.
  unfold visit_safe, returns, compare_pair. intros ->.
  rewrite compare_nc_nccmp_cases. cbv zeta. simpl arg_or.
  destruct (subprocess_run W _) as [err | proc]; [done |].
  intros Hsafe. apply orb_prop_elim in Hsafe.
  destruct (decide (returncode proc ≠ 0)) as [Hrc | Hrc]; [| done].
  destruct Hsafe as [Hzero | Hdec].
  - apply bool_decide_unpack in Hzero. contradiction.
  - apply bool_decide_unpack in Hdec as [text ->].
    by destruct (read_table W text).
Qed.

Lemma compare_ncfiles_loop_sys_returns cands acc :
  Forall (λ c, visit_safe is_file_sys W ref_dir opts ex c) cands →
  returns (loop_sys cands acc).
Proof.
  intros Hall. revert acc.
  induction Hall as [| c cs Hc _ IH]; intros acc; [done |].
  rewrite compare_ncfiles_loop_sys_cons.
  destruct (is_file_sys (reference_of ref_dir c)) as [err | [|]] eqn:Hfile.
  - unfold visit_safe in Hc. by rewrite Hfile in Hc.
  - destruct (returns_inr _ (compare_pair_safe c Hfile Hc)) as [v Hv].
    rewrite (bind_value _ _ (trace (compare_pair W ref_dir opts ex c)) v)
      by (rewrite <- Hv; apply surjective_py).
    apply (IH (acc ++ [v])).
  - rewrite warn_then. apply (IH acc).
Qed.

End SystemLoop.

Section SystemReport.

Context (candidate_run reference_run : WrfHydroRun)
  (opts : list string) (ex : option (list string)).

Abbreviation block_sys :=
  (category_block_sys is_file_sys W candidate_run reference_run opts ex).

Lemma RestartDiffs_init_sys_blocks o e :
  RestartDiffs_init_sys is_file_sys W candidate_run reference_run o e
  = (let opts := arg_or default_nccmp_options o in
     let ex := arg_or (Some default_exclude_vars) e in
     self <- category_block_sys is_file_sys W candidate_run reference_run
               opts ex Hydro fresh_report ;;
     self <- category_block_sys is_file_sys W candidate_run reference_run
               opts ex Lsm self ;;
     self <- category_block_sys is_file_sys W candidate_run reference_run
               opts ex Nudging self ;;
     ret self).
Proof.
  unfold RestartDiffs_init_sys, category_block_sys, compared, fresh_report.
  destruct candidate_run as [ch cl cn], reference_run as [rh rl rn].
  cbn [restart_of restart_hydro restart_lsm restart_nudging].
  destruct ch, rh, cl, rl, cn, rn; reflexivity.
Qed.

(** A block that returns leaves [diff_counts] a dictionary. *)
Lemma category_block_sys_keeps_dict cat self self' :
  is_Some (diff_counts self) →
  outcome (block_sys cat self) = inr self' →
  is_Some (diff_counts self').
Proof.
  intros [d Hd]. unfold category_block_sys.
  destruct (compared cat candidate_run reference_run).
  - intros H. apply bind_outcome_inr in H as (out & _ & H).
    unfold diff_counts_update in H.
    rewrite diff_counts_set_field, Hd in H. injection H as <-. by eexists.
  - rewrite warn_then. intros [= <-]. by exists d.
Qed.

(** A block raises only what the visit of a candidate raises. *)
Lemma category_block_sys_inl cat self err :
  is_Some (diff_counts self) →
  outcome (block_sys cat self) = inl err →
  ∃ first_reference rest c,
    restart_of cat reference_run = first_reference :: rest
    ∧ c ∈ restart_of cat candidate_run
    ∧ visit_raises is_file_sys W (parent first_reference) opts ex c err.
Proof.
  intros [d Hd]. unfold category_block_sys, compared, compare_ncfiles_sys.
  destruct (restart_of cat candidate_run) as [| c0 cs0] eqn:Hcands.
  { rewrite warn_then. discriminate. }
  destruct (restart_of cat reference_run) as [| r0 rs].
  { rewrite warn_then. discriminate. }
  intros H. apply bind_outcome_inl in H as [H | (out & _ & H)].
  - simpl arg_or in H.
    destruct (compare_ncfiles_loop_sys_inl _ _ _ _ _ _ H) as (c & Hin & Hc).
    by exists r0, rs, c.
  - unfold diff_counts_update in H.
    rewrite diff_counts_set_field, Hd in H. discriminate.
Qed.

(** A block returns when the visits of its candidates cannot raise. *)
Lemma category_block_sys_returns cat self :
  is_Some (diff_counts self) →
  (∀ first_reference rest,
     restart_of cat reference_run = first_reference :: rest →
     Forall (λ c, visit_safe is_file_sys W (parent first_reference) opts ex c)
       (restart_of cat candidate_run)) →
  ∃ self', outcome (block_sys cat self) = inr self'.
Proof.
  intros [d Hd] Hsafe.
  unfold category_block_sys, compared, compare_ncfiles_sys.
  destruct (restart_of cat candidate_run) as [| c0 cs0] eqn:Hcands.
  { rewrite warn_then. by eexists. }
  destruct (restart_of cat reference_run) as [| r0 rs].
  { rewrite warn_then. by eexists. }
  simpl arg_or.
  pose proof (compare_ncfiles_loop_sys_returns (parent r0) opts ex
                (c0 :: cs0) [] (Hsafe r0 rs eq_refl)) as Hret.
  apply returns_inr in Hret as [out Hout].
  rewrite (bind_value _ _ _ out (eq_trans (surjective_py _)
             (f_equal (pair _) Hout))).
  unfold diff_counts_update. rewrite diff_counts_set_field, Hd. simpl.
  by eexists.
Qed.

End SystemReport.

End System.

(** When [is_file] answers everywhere as the world has it, the functions
    with the system are the functions of the world. *)
Lemma compare_ncfiles_sys_agrees is_file_sys W cands refs o e :
  (∀ p, is_file_sys p = inr (is_file W p)) →
  compare_ncfiles_sys is_file_sys W cands refs o e
  = compare_ncfiles W cands refs o e.
Proof.
  intros Hall. unfold compare_ncfiles_sys, compare_ncfiles.
  destruct refs as [| r0 rs]; [done |].
  apply compare_ncfiles_loop_sys_agrees, Forall_forall. intros c _.
  apply Hall.
Qed.

Lemma RestartDiffs_init_sys_agrees is_file_sys W candidate_run reference_run
    o e :
  (∀ p, is_file_sys p = inr (is_file W p)) →
  RestartDiffs_init_sys is_file_sys W candidate_run reference_run o e
  = RestartDiffs_init W candidate_run reference_run o e.
Proof.
  intros Hall. unfold RestartDiffs_init_sys, RestartDiffs_init.
  by rewrite !(compare_ncfiles_sys_agrees _ _ _ _ _ _ Hall).
Qed.

(** X9: an exception of [compare_ncfiles] is the [IndexError] of an empty
    reference list, or an exception of [is_file] on the reference path of
    a candidate, or the exception of the comparison of a candidate whose
    reference is a file. *)
Theorem compare_ncfiles_sys_exception is_file_sys W candidates references
    o e err :
  outcome (compare_ncfiles_sys is_file_sys W candidates references o e)
  = inl err →
  (references = [] ∧ err = IndexError)
  ∨ ∃ first_reference rest c,
      references = first_reference :: rest
      ∧ c ∈ candidates
      ∧ (is_file_sys (reference_of (parent first_reference) c) = inl err
         ∨ (is_file_sys (reference_of (parent first_reference) c) = inr true
            ∧ outcome (compare_pair W (parent first_reference)
                         (arg_or default_nccmp_options o)
                         (arg_or (Some default_exclude_vars) e) c)
              = inl err)).
Proof.
  unfold compare_ncfiles_sys. destruct references as [| r0 rs].
  - intros [= <-]. by left.
  - intros H. right.
    destruct (compare_ncfiles_loop_sys_inl _ _ _ _ _ _ _ _ H)
      as (c & Hin & Hc).
    by exists r0, rs, c.
Qed.

(** X10: the constructor raises nothing of its own: an exception of the
    constructor is an exception of [is_file] on the reference path of a
    candidate, or the exception of the comparison of a candidate whose
    reference is a file, in a category with a reference collection that
    is not empty; it is never the [IndexError] of an empty collection, nor
    an [AttributeError] of [diff_counts]. *)
Theorem RestartDiffs_init_sys_exception is_file_sys W candidate_run
    reference_run o e err :
  outcome (RestartDiffs_init_sys is_file_sys W candidate_run reference_run
             o e) = inl err →
  ∃ cat first_reference rest c,
    restart_of cat reference_run = first_reference :: rest
    ∧ c ∈ restart_of cat candidate_run
    ∧ (is_file_sys (reference_of (parent first_reference) c) = inl err
       ∨ (is_file_sys (reference_of (parent first_reference) c) = inr true
          ∧ outcome (compare_pair W (parent first_reference)
                       (arg_or default_nccmp_options o)
                       (arg_or (Some default_exclude_vars) e) c)
            = inl err)).
Proof.
  rewrite RestartDiffs_init_sys_blocks. cbv zeta.
  set (opts := arg_or default_nccmp_options o).
  set (ex := arg_or (Some default_exclude_vars) e).
  assert (∀ cat self,
            is_Some (diff_counts self) →
            outcome (category_block_sys is_file_sys W candidate_run
                       reference_run opts ex cat self) = inl err →
            ∃ cat first_reference rest c,
              restart_of cat reference_run = first_reference :: rest
              ∧ c ∈ restart_of cat candidate_run
              ∧ visit_raises is_file_sys W (parent first_reference) opts ex
                  c err) as Hblock.
  { intros cat self Hd H.
    destruct (category_block_sys_inl _ _ _ _ _ _ _ _ _ Hd H)
      as (r0 & rs & c & Hc).
    by exists cat, r0, rs, c. }
  assert (is_Some (diff_counts fresh_report)) as Hd0 by (by eexists).
  intros H. apply bind_outcome_inl in H as [H | (s1 & H1 & H)].
  { by apply (Hblock Hydro fresh_report). }
  pose proof (category_block_sys_keeps_dict _ _ _ _ _ _ _ _ _ Hd0 H1) as Hd1.
  apply bind_outcome_inl in H as [H | (s2 & H2 & H)].
  { by apply (Hblock Lsm s1). }
  pose proof (category_block_sys_keeps_dict _ _ _ _ _ _ _ _ _ Hd1 H2) as Hd2.
  apply bind_outcome_inl in H as [H | (s3 & H3 & H)].
  { by apply (Hblock Nudging s2). }
  discriminate.
Qed.

(** X11: the constructor returns an object when, for each candidate of
    each category, [is_file] answers on the reference path and, if that
    path is a file, the process of the comparison runs and its output
    decodes unless it exits with status zero; empty collections,
    candidates without a reference and output that is no table are all
    absorbed. *)
Theorem RestartDiffs_init_sys_returns is_file_sys W candidate_run
    reference_run o e :
  (∀ cat first_reference rest,
     restart_of cat reference_run = first_reference :: rest →
     Forall (λ c, visit_safe is_file_sys W (parent first_reference)
                    (arg_or default_nccmp_options o)
                    (arg_or (Some default_exclude_vars) e) c)
       (restart_of cat candidate_run)) →
  ∃ t obj,
    RestartDiffs_init_sys is_file_sys W candidate_run reference_run o e
    = (t, inr obj).
Proof.
  intros Hsafe.
  assert (∃ obj, outcome (RestartDiffs_init_sys is_file_sys W candidate_run
                            reference_run o e) = inr obj) as [obj Hobj].
  { rewrite RestartDiffs_init_sys_blocks. cbv zeta.
    set (opts := arg_or default_nccmp_options o) in *.
    set (ex := arg_or (Some default_exclude_vars) e) in *.
    assert (is_Some (diff_counts fresh_report)) as Hd0 by (by eexists).
    destruct (category_block_sys_returns is_file_sys W candidate_run
                reference_run opts ex Hydro fresh_report Hd0 (Hsafe Hydro))
      as [s1 H1].
    pose proof (category_block_sys_keeps_dict _ _ _ _ _ _ _ _ _ Hd0 H1)
      as Hd1.
    destruct (category_block_sys_returns is_file_sys W candidate_run
                reference_run opts ex Lsm s1 Hd1 (Hsafe Lsm)) as [s2 H2].
    pose proof (category_block_sys_keeps_dict _ _ _ _ _ _ _ _ _ Hd1 H2)
      as Hd2.
    destruct (category_block_sys_returns is_file_sys W candidate_run
                reference_run opts ex Nudging s2 Hd2 (Hsafe Nudging))
      as [s3 H3].
    exists s3.
    rewrite (bind_value _ _ _ s1 (eq_trans (surjective_py _)
               (f_equal (pair _) H1))). simpl.
    rewrite (bind_value _ _ _ s2 (eq_trans (surjective_py _)
               (f_equal (pair _) H2))). simpl.
    rewrite (bind_value _ _ _ s3 (eq_trans (surjective_py _)
               (f_equal (pair _) H3))). done. }
  eexists _, obj. rewrite <- Hobj. apply surjective_py.
Qed.

(** X18: the call of [DeepDiff] is a [TypeError] exactly when both files
    have been read and the caller gives a keyword that the call already
    gives: [ignore_order], or one of the positional parameters [self],
    [t1] and [t2]; nothing has happened then but the two reads. *)
Theorem diff_namelist_type_error L namelist1 namelist2 kwargs :
  snd (diff_namelist L namelist1 namelist2 kwargs) = inl TypeError
  ↔ (∃ n1 n2, f90nml_read L namelist1 = inr n1
              ∧ f90nml_read L namelist2 = inr n2)
    ∧ (∃ k, In k ["ignore_order"; "self"; "t1"; "t2"]
            ∧ is_Some (kwargs !! k))
    ∧ fst (diff_namelist L namelist1 namelist2 kwargs)
      = [ReadNamelist namelist1; ReadNamelist namelist2].
Proof.
  unfold diff_namelist.
  destruct (f90nml_read L namelist1) as [e1 | n1]; simpl.
  { split; [discriminate | intros [(? & ? & [=] & _) _]]. }
  destruct (f90nml_read L namelist2) as [e2 | n2]; simpl.
  { split; [discriminate | intros [(? & ? & _ & [=]) _]]. }
  destruct (call_keywords kwargs) as [kw |] eqn:Hkw; simpl.
  - split.
    + destruct (DeepDiff L n1 n2 kw); discriminate.
    + intros (_ & Hgiven & _).
      apply call_keywords_None in Hgiven. congruence.
  - split; [intros _ | done]. split; [by exists n1, n2 |].
    split; [by apply call_keywords_None | done].
Qed.

(** C6: the claim fails on the code when the output of the process is
    not UTF-8.  In the example, the process for [d.nc] exits with status 1
    and prints the byte 255: no table can be read from it, and the call
    raises [UnicodeDecodeError] (the decoding of line 57 is before the
    [try]) without a warning, where the claim has it warn and return the
    process object. *)
Theorem compare_nc_nccmp_undecodable :
  Example.subprocess_run
    ["nccmp"; "--data"; "--metadata"; "--force"; "--quiet"; "-S";
     "/cand/d.nc"; "/ref/d.nc"]
  = inr {| args := ["nccmp"; "--data"; "--metadata"; "--force"; "--quiet";
                    "-S"; "/cand/d.nc"; "/ref/d.nc"];
           returncode := 1;
           stdout := String (Ascii.ascii_of_nat 255) "";
           stderr := "" |}
  ∧ compare_nc_nccmp Example.world (PPath (Example.cand "d.nc"))
      (PPath (Example.ref "d.nc")) Omitted Omitted
    = ([Spawn ["nccmp"; "--data"; "--metadata"; "--force"; "--quiet"; "-S";
               "/cand/d.nc"; "/ref/d.nc"]], inl UnicodeDecodeError)
  ∧ warnings (trace (compare_nc_nccmp Example.world
                       (PPath (Example.cand "d.nc"))
                       (PPath (Example.ref "d.nc")) Omitted Omitted)) = [].
Proof.
  split; [reflexivity |].
  assert (compare_nc_nccmp Example.world (PPath (Example.cand "d.nc"))
            (PPath (Example.ref "d.nc")) Omitted Omitted
          = ([Spawn ["nccmp"; "--data"; "--metadata"; "--force"; "--quiet";
                     "-S"; "/cand/d.nc"; "/ref/d.nc"]],
             inl UnicodeDecodeError)) as Heq.
  { rewrite compare_nc_nccmp_cases. cbv zeta. vm_compute. reflexivity. }
  split; [exact Heq | by rewrite Heq].
Qed.

(** The reference of [secret.nc] cannot be looked at. *)
Lemma compare_ncfiles_sys_exception_witness :
  ([Example.ref "a.nc"] = [] ∧ OSError = IndexError)
  ∨ ∃ first_reference rest c,
      [Example.ref "a.nc"] = first_reference :: rest
      ∧ c ∈ [Example.cand "a.nc"; Example.cand "secret.nc"]
      ∧ (Guarded.is_file (reference_of (parent first_reference) c)
         = inl OSError
         ∨ (Guarded.is_file (reference_of (parent first_reference) c)
            = inr true
            ∧ outcome (compare_pair Example.world (parent first_reference)
                         default_nccmp_options (Some default_exclude_vars) c)
              = inl OSError)).
Proof.
  apply (compare_ncfiles_sys_exception Guarded.is_file Example.world
           [Example.cand "a.nc"; Example.cand "secret.nc"]
           [Example.ref "a.nc"] Omitted Omitted OSError).
  vm_compute. reflexivity.
Defined.

Lemma RestartDiffs_init_sys_exception_witness :
  ∃ cat first_reference rest c,
    restart_of cat Example.reference_run = first_reference :: rest
    ∧ c ∈ restart_of cat
            {| restart_hydro := []; restart_lsm := [];
               restart_nudging := [Example.cand "d.nc"] |}
    ∧ (Guarded.is_file (reference_of (parent first_reference) c)
       = inl UnicodeDecodeError
       ∨ (Guarded.is_file (reference_of (parent first_reference) c)
          = inr true
          ∧ outcome (compare_pair Example.world (parent first_reference)
                       default_nccmp_options (Some default_exclude_vars) c)
            = inl UnicodeDecodeError)).
Proof.
  apply (RestartDiffs_init_sys_exception Guarded.is_file Example.world
           {| restart_hydro := []; restart_lsm := [];
              restart_nudging := [Example.cand "d.nc"] |}
           Example.reference_run Omitted Omitted UnicodeDecodeError).
  vm_compute. reflexivity.
Defined.

(** The two runs of the example: an empty category, a candidate without a
    reference and an output that is no table, and an object all the same. *)
Lemma RestartDiffs_init_sys_returns_witness :
  ∃ t obj,
    RestartDiffs_init_sys Guarded.is_file Example.world Example.candidate_run
      Example.reference_run Omitted Omitted = (t, inr obj).
Proof.
  apply (RestartDiffs_init_sys_returns Guarded.is_file Example.world
           Example.candidate_run Example.reference_run Omitted Omitted).
  intros cat first_reference rest.
  destruct cat; intros [= <- <-]; repeat constructor.
Defined.

(** A caller who gives [t1] gets a [TypeError]. *)
Lemma diff_namelist_type_error_witness :
  snd (diff_namelist NamelistExample.libraries "a.nml" "b.nml"
         {["t1" := KwStr "other.nml"]}) = inl TypeError.
Proof.
  apply (diff_namelist_type_error NamelistExample.libraries "a.nml" "b.nml"
           {["t1" := KwStr "other.nml"]}).
  split; [| split].
  - exists ["&grid"; "nx=3"; "/"], ["&grid"; "nx=4"; "/"].
    split; reflexivity.
  - exists "t1". split; [simpl; tauto |]. eexists. vm_compute. reflexivity.
  - vm_compute. reflexivity.
Defined.
